(** * brainstem-pm: the teleop bridge ([tools/teleop_server.py])

    A shallow embedding of the serial transport ([BrainstemSerial]) and of
    the WebSocket bridge ([TeleopServer]), with the properties of the
    line framing, the command translation and the fan-out.

    Conventions.
    - Python [bytes]/[bytearray] are [list byte]; Python [str] is [string]
      (characters 128..255 stand for every non-ASCII code point: the code
      only ever asks whether a character is ASCII).
    - Python [int] is [Z]; Python [float] is [spec_float] (binary64 values).
    - A coroutine is a function of the bridge state and of an oracle that
      says which I/O operations fail; it returns an outcome, the new state
      and the trace of the I/O it performed.  Each call runs without
      interleaving, as between two [await]s of the event loop. *)

From Stdlib Require Import ZArith String Ascii Strings.Byte SpecFloat Lia.
From stdpp Require Import gmap strings list pretty sorting.
From Equations Require Import Equations.
From Equations.Prop Require Import Logic.

Set Warnings "-register-all".
#[local] Open Scope Z_scope.
#[local] Arguments String.append !_ _ / : simpl nomatch.

(** ** Bytes and text *)

Module Py.

Abbreviation bytes := (list byte).

Definition LF : byte := x0a.
Definition nl : ascii := ascii_of_byte x0a.
Definition cr : ascii := ascii_of_byte x0d.

Definition byte_is_ascii (b : byte) : bool := (Byte.to_N b <? 128)%N.
Definition char_is_ascii (c : ascii) : bool := (N_of_ascii c <? 128)%N.

(** [bytearray.index(b)]: position of the first [b], [None] for
    [ValueError]. *)
Fixpoint index (b : byte) (buf : bytes) : option nat :=
  match buf with
  | [] => None
  | x :: rest => if Byte.eqb x b then Some 0%nat else S <$> index b rest
  end.

(** [bs.decode("ascii", errors="ignore")] *)
Fixpoint decode_ascii_ignore (bs : bytes) : string :=
  match bs with
  | [] => EmptyString
  | b :: rest =>
      if byte_is_ascii b
      then String (ascii_of_byte b) (decode_ascii_ignore rest)
      else decode_ascii_ignore rest
  end.

(** [s.encode("ascii", errors="ignore")] *)
Fixpoint encode_ascii_ignore (s : string) : bytes :=
  match s with
  | EmptyString => []
  | String c rest =>
      if char_is_ascii c
      then byte_of_ascii c :: encode_ascii_ignore rest
      else encode_ascii_ignore rest
  end.

(** [s.rstrip(c)] for a one-character argument: every trailing [c] goes. *)
Fixpoint rstrip (c : ascii) (s : string) : string :=
  match s with
  | EmptyString => EmptyString
  | String a rest =>
      match rstrip c rest with
      | EmptyString => if Ascii.eqb a c then EmptyString else String a EmptyString
      | r => String a r
      end
  end.

(** [c * k] *)
Fixpoint replicate_char (k : nat) (c : ascii) : string :=
  match k with
  | O => EmptyString
  | S k' => String c (replicate_char k' c)
  end.

(** [s[-1]], [None] for the empty string *)
Fixpoint last_char (s : string) : option ascii :=
  match s with
  | EmptyString => None
  | String a rest =>
      match rest with
      | EmptyString => Some a
      | _ => last_char rest
      end
  end.

(** The stripping as the specification words it: a single trailing [c]
    is removed when present, nothing else. *)
Fixpoint spec_strip_single (c : ascii) (s : string) : string :=
  match s with
  | EmptyString => EmptyString
  | String a rest =>
      match rest with
      | EmptyString => if Ascii.eqb a c then EmptyString else s
      | _ => String a (spec_strip_single c rest)
      end
  end.

Fixpoint str_forall (P : ascii → bool) (s : string) : bool :=
  match s with
  | EmptyString => true
  | String a rest => P a && str_forall P rest
  end.

(** The ASCII characters from the space to the tilde. *)
Definition is_printable (c : ascii) : bool :=
  ((32 <=? N_of_ascii c) && (N_of_ascii c <=? 126))%N.

(** *** Numbers *)

(** [f"{z}"] for an [int] *)
Definition fmt_int (z : Z) : string := pretty z.

(** The integer nearest to [m * 2^e], ties to even: the rounding of
    float formatting. *)
Definition round_half_even (m e : Z) : Z :=
  if 0 <=? e then m * 2 ^ e
  else
    let d := 2 ^ (- e) in
    let q := m / d in
    let r := m mod d in
    if 2 * r <? d then q
    else if d <? 2 * r then q + 1
    else if Z.even q then q else q + 1.

Definition pad3 (k : Z) : string :=
  (if k <? 10 then "00" else if k <? 100 then "0" else "") +:+ pretty k.

Definition sign_str (s : bool) : string := if s then "-" else "".

(** [f"{x:.3f}"] for a [float]: three digits after the point, correctly
    rounded from the exact binary value. *)
Definition fmt_3f (x : spec_float) : string :=
  match x with
  | S754_nan => "nan"
  | S754_infinity s => sign_str s +:+ "inf"
  | S754_zero s => sign_str s +:+ "0.000"
  | S754_finite s m e =>
      let n := round_half_even (Z.pos m * 1000) e in
      sign_str s +:+ pretty (n / 1000) +:+ "." +:+ pad3 (n mod 1000)
  end.

(** binary64 *)
Definition prec : Z := 53.
Definition emax : Z := 1024.

(** *** Exceptions *)

Inductive exn :=
| ValueError | TypeError | OverflowError | AttributeError
| RuntimeError (msg : string)
| SerialException      (* raised by [serial.Serial.write] *)
| ConnectionError.     (* raised by [WebSocketResponse.send_str] *)

Inductive outcome (A : Type) :=
| Returned (a : A)
| Raised (e : exn).
Arguments Returned {A} a.
Arguments Raised {A} e.

(** *** JSON values, as [json.loads] builds them *)

Inductive json :=
| JNull
| JBool (b : bool)
| JInt (z : Z)
| JFloat (f : spec_float)
| JStr (s : string)
| JList (l : list json)
| JDict (m : gmap string json).

(** The text parsers of the Python runtime, which the bridge calls and
    does not define: [json.loads] ([None] when it raises), [float(s)] and
    [int(s)] on a [str] ([None] for [ValueError]). *)
Class PyRuntime := {
  json_loads : string → option json;
  float_of_str : string → option spec_float;
  int_of_str : string → option Z;
}.

(** [float(n)] for an [int]: nearest binary64, [OverflowError] beyond
    the range. *)
Definition float_of_int (z : Z) : outcome spec_float :=
  match binary_normalize prec emax z 0 false with
  | S754_infinity _ => Raised OverflowError
  | f => Returned f
  end.

(** [int(x)] for a [float]: truncation toward zero. *)
Definition int_of_float (x : spec_float) : outcome Z :=
  match x with
  | S754_nan => Raised ValueError
  | S754_infinity _ => Raised OverflowError
  | S754_zero _ => Returned 0
  | S754_finite s m e =>
      let a := if 0 <=? e then Z.pos m * 2 ^ e else Z.pos m / 2 ^ (- e) in
      Returned (if s then - a else a)
  end.

Section Builtins.
Context `{PyRuntime}.

(** [float(v)] *)
Definition py_float (v : json) : outcome spec_float :=
  match v with
  | JNull => Raised TypeError
  | JBool b =>
      Returned (if b then S754_finite false 4503599627370496 (-52)
                else S754_zero false)
  | JInt z => float_of_int z
  | JFloat f => Returned f
  | JStr s =>
      match float_of_str s with
      | Some f => Returned f
      | None => Raised ValueError
      end
  | JList _ | JDict _ => Raised TypeError
  end.

(** [int(v)] *)
Definition py_int (v : json) : outcome Z :=
  match v with
  | JNull => Raised TypeError
  | JBool b => Returned (if b then 1 else 0)
  | JInt z => Returned z
  | JFloat f => int_of_float f
  | JStr s =>
      match int_of_str s with
      | Some z => Returned z
      | None => Raised ValueError
      end
  | JList _ | JDict _ => Raised TypeError
  end.

End Builtins.

(** [bool(v)] *)
Definition py_bool (v : json) : bool :=
  match v with
  | JNull => false
  | JBool b => b
  | JInt z => negb (z =? 0)
  | JFloat (S754_zero _) => false
  | JFloat _ => true
  | JStr s => negb (String.eqb s "")
  | JList l => match l with [] => false | _ => true end
  | JDict m => negb (bool_decide (dom m = ∅))
  end.

(** [msg.get(key, default)]: [AttributeError] when [msg] is no dict. *)
Definition py_get (msg : json) (key : string) (dflt : json) : outcome json :=
  match msg with
  | JDict m => Returned (default dflt (m !! key))
  | _ => Raised AttributeError
  end.

(** *** [json.dumps] of the events the bridge sends *)

Definition dquote : ascii := ascii_of_byte x22.
Definition backslash : ascii := ascii_of_byte x5c.

Definition hex_digit (n : N) : ascii :=
  ascii_of_N (if (n <? 10)%N then 48 + n else 87 + n)%N.

Definition esc (c : ascii) (tail : string) : string :=
  String backslash (String c tail).

(** One character of a JSON string, with [ensure_ascii] *)
Definition json_escape_char (c : ascii) (tail : string) : string :=
  let n := N_of_ascii c in
  if Ascii.eqb c dquote then esc dquote tail
  else if Ascii.eqb c backslash then esc backslash tail
  else if (n =? 10)%N then esc "n" tail
  else if (n =? 13)%N then esc "r" tail
  else if (n =? 9)%N then esc "t" tail
  else if (n =? 8)%N then esc "b" tail
  else if (n =? 12)%N then esc "f" tail
  else if ((32 <=? n) && (n <=? 126))%N then String c tail
  else esc "u" (String (hex_digit (n / 4096 mod 16))
               (String (hex_digit (n / 256 mod 16))
               (String (hex_digit (n / 16 mod 16))
               (String (hex_digit (n mod 16)) tail)))).

Fixpoint json_escape (s : string) (tail : string) : string :=
  match s with
  | EmptyString => tail
  | String c rest => json_escape_char c (json_escape rest tail)
  end.

(** [json.dumps(s)] for a [str] *)
Definition json_str (s : string) : string :=
  String dquote (json_escape s (String dquote EmptyString)).

(** [json.dumps({"type": ty, "line": line})] *)
Definition json_dumps_line (ty line : string) : string :=
  "{" +:+ json_str "type" +:+ ": " +:+ json_str ty +:+ ", "
      +:+ json_str "line" +:+ ": " +:+ json_str line +:+ "}".

(** [json.dumps({"type": "hello", "serial": dev, "baud": baud})] *)
Definition json_dumps_hello (dev : string) (baud : Z) : string :=
  "{" +:+ json_str "type" +:+ ": " +:+ json_str "hello" +:+ ", "
      +:+ json_str "serial" +:+ ": " +:+ json_str dev +:+ ", "
      +:+ json_str "baud" +:+ ": " +:+ fmt_int baud +:+ "}".

End Py.

(** ** [pick_serial_port]: the choice of the serial device *)

Module Ports.
Import Py.

(** [needle in hay] *)
Fixpoint contains (needle hay : string) : bool :=
  String.prefix needle hay ||
  match hay with
  | EmptyString => false
  | String _ rest => contains needle rest
  end.

(** [s.lower()] and [s.upper()], on the characters below 256.  The upper
    case of the sharp s is two letters; the micro sign and the y with
    diaeresis, whose upper case lies beyond 255, stay as they are. *)
Definition lower_char (c : ascii) : ascii :=
  let n := N_of_ascii c in
  if ((65 <=? n) && (n <=? 90))%N then ascii_of_N (n + 32)
  else if ((192 <=? n) && (n <=? 222) && negb (n =? 215))%N then ascii_of_N (n + 32)
  else c.

Fixpoint lower (s : string) : string :=
  match s with
  | EmptyString => EmptyString
  | String c rest => String (lower_char c) (lower rest)
  end.

Definition upper_char (c : ascii) (tail : string) : string :=
  let n := N_of_ascii c in
  if ((97 <=? n) && (n <=? 122))%N then String (ascii_of_N (n - 32)) tail
  else if ((224 <=? n) && (n <=? 254) && negb (n =? 247))%N
       then String (ascii_of_N (n - 32)) tail
  else if (n =? 223)%N then String "S" (String "S" tail)
  else String c tail.

Fixpoint upper (s : string) : string :=
  match s with
  | EmptyString => EmptyString
  | String c rest => upper_char c (upper rest)
  end.

(** An entry of [serial.tools.list_ports.comports()]. *)
Record ListPortInfo := {
  device : option string;
  description : option string;
}.

(** The truth value of an optional text: [None] and the empty text are
    false. *)
Definition truthy (s : option string) : bool :=
  match s with
  | Some (String _ _) => true
  | _ => false
  end.

Definition keywords : list string :=
  ["arduino"; "micro"; "leonardo"; "teensy"; "cdc"; "usb serial"].

(** What one port appends to [candidates] (the body of the loop,
    lines 43-52). *)
Definition port_candidates (p : ListPortInfo) : list (Z * string) :=
  let dev := default "" (device p) in
  (if truthy (device p) &&
      (contains "ttyACM" dev || contains "ttyUSB" dev || contains "cu.usb" dev)
   then
     let desc := lower (default "" (description p)) in
     let score := if existsb (λ k, contains k desc) keywords then 1 + 1 else 1 in
     [(score, dev)]
   else [])
  ++
  (if truthy (device p) && String.prefix "COM" (upper dev)
   then [(0, dev)]
   else []).

Definition candidates (comports : list ListPortInfo) : list (Z * string) :=
  flat_map port_candidates comports.

(** The order of the keys [(-t[0], t[1])]: tuples compare by their
    first members, then by their second. *)
Definition key_le (a b : Z * string) : Prop :=
  - a.1 < - b.1 ∨ (- a.1 = - b.1 ∧ String.le a.2 b.2).

#[global] Instance key_le_dec : RelDecision key_le.
Proof. intros a b. unfold key_le. apply _. Defined.

(** [pick_serial_port] (lines 37-56) on the ports that [comports()]
    lists.  Two candidates with the same key are the same tuple, so the
    sorted list does not depend on the sorting algorithm. *)
Definition pick_serial_port (explicit : option string)
    (comports : list ListPortInfo) : option string :=
  if truthy explicit then explicit
  else
    match merge_sort key_le (candidates comports) with
    | [] => None
    | best :: _ => Some best.2
    end.

End Ports.

(** ** [BrainstemSerial.read_lines]: the line assembly *)

Module ReadLines.
Import Py.

(** One line taken off the buffer (lines 96-100): the text that is
    yielded and what is left of the buffer. *)
Definition line_text (raw : bytes) : string :=
  rstrip cr (decode_ascii_ignore raw).

(** The inner [while True] (lines 94-101): lines are taken off the buffer
    until it holds no 0x0A. *)
Equations? drain (buf : bytes) : list string * bytes by wf (length buf) lt :=
  drain buf with inspect (index LF buf) => {
    | exist _ None _ := ([], buf)
    | exist _ (Some n) Hn :=
        let line := line_text (take n buf) in
        let '(lines, rest) := drain (drop (S n) buf) in
        (line :: lines, rest) }.
Proof.
  assert (Hlt : ∀ (b : bytes) k, index LF b = Some k → (k < length b)%nat).
  { induction b as [|x b IH]; intros k Hk; simpl in Hk; [done|].
    destruct (Byte.eqb x LF); [injection Hk as <-; simpl; lia|].
    destruct (index LF b) as [j|]; simpl in Hk; [|done].
    injection Hk as <-. specialize (IH j eq_refl). simpl. lia. }
  apply Hlt in Hn. rewrite length_drop. lia.
Qed.

(** One turn of the outer loop (lines 91-103) on the chunk that
    [read(128)] returned: an empty chunk only sleeps. *)
Definition on_chunk (buf chunk : bytes) : list string * bytes :=
  match chunk with
  | [] => ([], buf)
  | _ => drain (buf ++ chunk)
  end.

(** The generator run over the chunks that the successive reads return,
    from the buffer [buf]: the lines yielded, in order, and the buffer
    left. *)
Fixpoint read_lines_from (buf : bytes) (chunks : list bytes) : list string * bytes :=
  match chunks with
  | [] => ([], buf)
  | chunk :: more =>
      let '(lines, buf') := on_chunk buf chunk in
      let '(lines', buf'') := read_lines_from buf' more in
      (lines ++ lines', buf'')
  end.

(** [buf = bytearray()] (line 86) *)
Definition read_lines (chunks : list bytes) : list string * bytes :=
  read_lines_from [] chunks.

(** The wire image of a list of lines: each followed by one 0x0A. *)
Definition frame (lines : list bytes) : bytes :=
  concat (map (λ l, l ++ [LF]) lines).

End ReadLines.

(** ** [TeleopServer]: the bridge *)

Module Teleop.
Import Py.

(** A [web.WebSocketResponse], known by its identity only. *)
Definition client := nat.

(** [serial.Serial]: the port object, truthy whenever it exists. *)
Record Serial := { is_open : bool }.

Record BrainstemSerial := {
  dev : string;
  baud : Z;
  _ser : option Serial;
}.

(** The fields of [TeleopServer] ([started_ts], a wall-clock reading that
    only [/status] consults, is left out). *)
Record TeleopServer := {
  serial : BrainstemSerial;
  ws_clients : gset client;
  seq : Z;
  tx_count : Z;
  rx_count : Z;
  last_tx : option string;
  last_rx : option string;
}.

(** [TeleopServer.__init__] (lines 114-123) *)
Definition init (serial_dev : string) (baud : Z) : TeleopServer :=
  {| serial := {| dev := serial_dev; baud := baud; _ser := None |};
     ws_clients := ∅; seq := 1;
     tx_count := 0; rx_count := 0; last_tx := None; last_rx := None |}.

Definition set_serial (v : BrainstemSerial) (st : TeleopServer) :=
  {| serial := v; ws_clients := ws_clients st; seq := seq st;
     tx_count := tx_count st; rx_count := rx_count st;
     last_tx := last_tx st; last_rx := last_rx st |}.
Definition set_ws_clients (v : gset client) (st : TeleopServer) :=
  {| serial := serial st; ws_clients := v; seq := seq st;
     tx_count := tx_count st; rx_count := rx_count st;
     last_tx := last_tx st; last_rx := last_rx st |}.
Definition set_seq (v : Z) (st : TeleopServer) :=
  {| serial := serial st; ws_clients := ws_clients st; seq := v;
     tx_count := tx_count st; rx_count := rx_count st;
     last_tx := last_tx st; last_rx := last_rx st |}.
Definition set_tx (count : Z) (line : option string) (st : TeleopServer) :=
  {| serial := serial st; ws_clients := ws_clients st; seq := seq st;
     tx_count := count; rx_count := rx_count st;
     last_tx := line; last_rx := last_rx st |}.
Definition set_rx (count : Z) (line : option string) (st : TeleopServer) :=
  {| serial := serial st; ws_clients := ws_clients st; seq := seq st;
     tx_count := tx_count st; rx_count := count;
     last_tx := last_tx st; last_rx := line |}.

(** [BrainstemSerial.open] (lines 66-72), when the port opens, and
    [TeleopServer.start] (lines 125-126). *)
Definition open (s : BrainstemSerial) : BrainstemSerial :=
  {| dev := dev s; baud := baud s; _ser := Some {| is_open := true |} |}.
Definition start (st : TeleopServer) : TeleopServer :=
  set_serial (open (serial st)) st.

(** [BrainstemSerial.close] (lines 105-110): the port is dropped when
    there is one and it is open. *)
Definition close (s : BrainstemSerial) : BrainstemSerial :=
  match _ser s with
  | Some port =>
      if is_open port then {| dev := dev s; baud := baud s; _ser := None |}
      else s
  | None => s
  end.

(** What the bridge does to the outside, in order. *)
Inductive direction := ToSerial | ToWs.
Inductive event :=
| Logged (d : direction) (line : string)   (* the [print] of lines 193 and 258 *)
| SerWrite (data : bytes)                  (* [self._ser.write(data)] returned *)
| WsSend (w : client) (payload : string).  (* [w.send_str(payload)] returned *)

(** The outside during one call: whether the serial write raises, and
    the sessions whose [send_str] raises. *)
Record Env := {
  write_raises : bool;
  send_raises : client → bool;
}.

(** A coroutine of the bridge. *)
Definition Co (A : Type) : Type :=
  Env → TeleopServer → outcome A * TeleopServer * list event.

Definition ret {A} (a : A) : Co A := λ _ st, (Returned a, st, []).
Definition raise {A} (e : exn) : Co A := λ _ st, (Raised e, st, []).
Definition bind {A B} (m : Co A) (k : A → Co B) : Co B :=
  λ env st,
    match m env st with
    | (Returned a, st1, tr1) =>
        let '(r, st2, tr2) := k a env st1 in (r, st2, tr1 ++ tr2)
    | (Raised e, st1, tr1) => (Raised e, st1, tr1)
    end.
Definition lift {A} (r : outcome A) : Co A := λ _ st, (r, st, []).
Definition get : Co TeleopServer := λ _ st, (Returned st, st, []).
Definition modify (f : TeleopServer → TeleopServer) : Co unit :=
  λ _ st, (Returned tt, f st, []).
Definition emit (e : event) : Co unit := λ _ st, (Returned tt, st, [e]).

(** [try: body finally: fin] *)
Definition try_finally {A} (body : Co A) (fin : Co unit) : Co A :=
  λ env st,
    let '(r, st1, tr1) := body env st in
    match fin env st1 with
    | (Returned _, st2, tr2) => (r, st2, tr1 ++ tr2)
    | (Raised e, st2, tr2) => (Raised e, st2, tr1 ++ tr2)
    end.

(** [try: body except Exception: handler] *)
Definition try_except {A} (body : Co A) (handler : Co A) : Co A :=
  λ env st,
    match body env st with
    | (Returned a, st1, tr1) => (Returned a, st1, tr1)
    | (Raised _, st1, tr1) =>
        let '(r, st2, tr2) := handler env st1 in (r, st2, tr1 ++ tr2)
    end.

#[global] Instance Co_ret : MRet Co := @ret.
#[global] Instance Co_bind : MBind Co := λ A B k m, bind m k.

(** [for x in xs: body x] *)
Fixpoint for_each {X} (xs : list X) (body : X → Co unit) : Co unit :=
  match xs with
  | [] => ret tt
  | x :: rest => body x;; for_each rest body
  end.

(** [self._ser.write(data)] through the executor *)
Definition ser_write (data : bytes) : Co unit :=
  λ env st,
    if write_raises env then (Raised SerialException, st, [])
    else (Returned tt, st, [SerWrite data]).

(** [await w.send_str(payload)] *)
Definition send_str (w : client) (payload : string) : Co unit :=
  λ env st,
    if send_raises env w then (Raised ConnectionError, st, [])
    else (Returned tt, st, [WsSend w payload]).

(** [BrainstemSerial.write_line] (lines 74-81).  The lock orders whole
    calls; one call is what is modelled here. *)
Definition write_line (line : string) : Co unit :=
  st ← get;
  match _ser (serial st) with
  | None => raise (RuntimeError "serial not open")
  | Some _ =>
      let data := encode_ascii_ignore (rstrip nl line +:+ String nl EmptyString) in
      ser_write data
  end.

Section Handlers.
Context `{PyRuntime}.

(** The fan-out of the echo (lines 200-205, and again 215-220, 230-235,
    248-253): a failed delivery is passed over. *)
Definition echo_tx (line : string) : Co unit :=
  let payload := json_dumps_line "tx" line in
  st ← get;
  for_each (elements (ws_clients st))
    (λ w, try_except (send_str w payload) (ret tt)).

(** The [print] and the [try ... finally] that every branch of
    [handle_msg] ends with (lines 193-205, 209-220, 224-235, 242-253). *)
Definition transmit (line : string) : Co unit :=
  emit (Logged ToSerial line);;
  try_finally
    (write_line line;;
     modify (λ st, set_tx (tx_count st + 1) (Some line) st))
    (echo_tx line).

(** [t == name] for a [str] literal [name] *)
Definition is_str (t : json) (name : string) : bool :=
  match t with
  | JStr s => String.eqb s name
  | _ => false
  end.

Definition next_seq (n : Z) : Z := Z.land (n + 1) 0xFFFFFFFF.

(** [TeleopServer.handle_msg] (lines 182-253) *)
Definition handle_msg (ws : client) (data : string) : Co unit :=
  match json_loads data with
  | None => ret tt
  | Some msg =>
      t ← lift (py_get msg "type" JNull);
      if is_str t "twist" then
        vx_arg ← lift (py_get msg "vx" (JFloat (S754_zero false)));
        vx ← lift (py_float vx_arg);
        wz_arg ← lift (py_get msg "wz" (JFloat (S754_zero false)));
        wz ← lift (py_float wz_arg);
        modify (λ st, set_seq (next_seq (seq st)) st);;
        st ← get;
        let line := "TWIST," +:+ fmt_3f vx +:+ "," +:+ fmt_3f wz
                             +:+ "," +:+ fmt_int (seq st) in
        transmit line
      else if is_str t "safe" then
        enable ← lift (py_get msg "enable" (JBool true));
        let v := if py_bool enable then 1 else 0 in
        let line := "SAFE," +:+ fmt_int v in
        transmit line
      else if is_str t "ping" then
        modify (λ st, set_seq (next_seq (seq st)) st);;
        st ← get;
        let line := "PING," +:+ fmt_int (seq st) in
        transmit line
      else if is_str t "led" then
        mask ← try_except
                 (mask_arg ← lift (py_get msg "mask" (JInt 0));
                  lift (py_int mask_arg))
                 (ret 0);
        let line := "LED," +:+ fmt_int mask in
        transmit line
      else ret tt
  end.

(** The delivery loop of [telemetry_task] (lines 265-269): the sessions
    whose delivery failed, in the order met. *)
Fixpoint deliver_rx (targets : list client) (payload : string) : Co (list client) :=
  match targets with
  | [] => ret []
  | ws :: rest =>
      dead1 ← try_except (send_str ws payload;; ret []) (ret [ws]);
      dead2 ← deliver_rx rest payload;
      ret (dead1 ++ dead2)
  end.

(** The body of the loop of [telemetry_task] for one line
    (lines 258-271). *)
Definition telemetry_step (line : string) : Co unit :=
  emit (Logged ToWs line);;
  modify (λ st, set_rx (rx_count st + 1) (Some line) st);;
  st ← get;
  if bool_decide (ws_clients st = ∅) then ret tt
  else
    let payload := json_dumps_line "rx" line in
    dead ← deliver_rx (elements (ws_clients st)) payload;
    for_each dead
      (λ ws, modify (λ st, set_ws_clients (ws_clients st ∖ {[ws]}) st)).

(** [telemetry_task] (lines 255-271) over the chunks that the reads of
    [read_lines] return, each with the outside as it is while the
    lines of that chunk are relayed. *)
Fixpoint telemetry_loop (buf : bytes) (reads : list (Env * bytes))
    (st : TeleopServer) : outcome unit * TeleopServer * list event :=
  match reads with
  | [] => (Returned tt, st, [])
  | (env, chunk) :: more =>
      let '(lines, buf') := ReadLines.on_chunk buf chunk in
      match for_each lines telemetry_step env st with
      | (Returned _, st1, tr1) =>
          let '(r, st2, tr2) := telemetry_loop buf' more st1 in
          (r, st2, tr1 ++ tr2)
      | (Raised e, st1, tr1) => (Raised e, st1, tr1)
      end
  end.

Definition telemetry_task (reads : list (Env * bytes))
    (st : TeleopServer) : outcome unit * TeleopServer * list event :=
  match _ser (serial st) with
  | None => (Raised (RuntimeError "serial not open"), st, [])
  | Some _ => telemetry_loop [] reads st
  end.

(** What a session delivers to [ws_handler]. *)
Inductive WSMsg :=
| TEXT (data : string)
| ERROR
| OTHER.

(** The receive loop of [ws_handler] (lines 144-148); the end of the
    list is the end of the connection. *)
Fixpoint receive_loop (ws : client) (msgs : list (Env * WSMsg))
    (st : TeleopServer) : outcome unit * TeleopServer * list event :=
  match msgs with
  | [] => (Returned tt, st, [])
  | (env, TEXT data) :: more =>
      match handle_msg ws data env st with
      | (Returned _, st1, tr1) =>
          let '(r, st2, tr2) := receive_loop ws more st1 in
          (r, st2, tr1 ++ tr2)
      | (Raised e, st1, tr1) => (Raised e, st1, tr1)
      end
  | (_, ERROR) :: _ => (Returned tt, st, [])
  | (_, OTHER) :: more => receive_loop ws more st
  end.

(** [ws_handler] (lines 136-152), its two [print]s left out. *)
Definition ws_handler (ws : client) (env0 : Env) (msgs : list (Env * WSMsg))
    (st : TeleopServer) : outcome unit * TeleopServer * list event :=
  let st0 := set_ws_clients ({[ws]} ∪ ws_clients st) st in
  let hello := json_dumps_hello (dev (serial st0)) (baud (serial st0)) in
  match send_str ws hello env0 st0 with
  | (Raised e, st1, tr1) => (Raised e, st1, tr1)
  | (Returned _, st1, tr1) =>
      let '(r, st2, tr2) := receive_loop ws msgs st1 in
      (r, set_ws_clients (ws_clients st2 ∖ {[ws]}) st2, tr1 ++ tr2)
  end.

(** The messages of all sessions in the order the event loop hands
    them to [handle_msg]; a call that raises ends the receive loop of
    its session, whose [finally] unregisters it. *)
Fixpoint serve (inputs : list (Env * client * string))
    (st : TeleopServer) : TeleopServer * list event :=
  match inputs with
  | [] => (st, [])
  | (env, ws, data) :: more =>
      let '(r, st1, tr1) := handle_msg ws data env st in
      let st1' :=
        match r with
        | Returned _ => st1
        | Raised _ => set_ws_clients (ws_clients st1 ∖ {[ws]}) st1
        end in
      let '(st2, tr2) := serve more st1' in
      (st2, tr1 ++ tr2)
  end.

End Handlers.

End Teleop.

(** ** The command vocabulary of the specification

    The definitions of this module follow the words of the specification
    (its data model and its external interfaces), not the code: the
    outbound command as a tagged variant, the device line it renders to,
    and the command that a client message stands for. *)

Module Spec.
Import Py.

Inductive OutboundCommand :=
| Move (vx wz : spec_float) (n : Z)
| SafetyToggle (enabled : bool)
| Ping (n : Z)
| LedMask (mask : Z).

(** [TWIST,<vx>,<wz>,<seq>], [SAFE,<0|1>], [PING,<seq>], [LED,<mask>] *)
Definition render (c : OutboundCommand) : string :=
  match c with
  | Move vx wz n =>
      "TWIST," +:+ fmt_3f vx +:+ "," +:+ fmt_3f wz +:+ "," +:+ fmt_int n
  | SafetyToggle enabled => "SAFE," +:+ (if enabled then "1" else "0")
  | Ping n => "PING," +:+ fmt_int n
  | LedMask mask => "LED," +:+ fmt_int mask
  end.

(** The sequence number attached to a command, for the two kinds that
    carry one. *)
Definition seq_of (c : OutboundCommand) : option Z :=
  match c with
  | Move _ _ n | Ping n => Some n
  | SafetyToggle _ | LedMask _ => None
  end.

Section Translate.
Context `{PyRuntime}.

(** The command that the message [m] stands for, [n] being the
    sequence number to attach: velocities must be numbers, the enable
    flag is read as a truth value (enabled when absent), the mask is an
    integer and 0 when it cannot be read as one. *)
Definition command_of (n : Z) (m : gmap string json) : option OutboundCommand :=
  match m !! "type" with
  | Some (JStr kind) =>
      if String.eqb kind "twist" then
        match py_float (default (JFloat (S754_zero false)) (m !! "vx")),
              py_float (default (JFloat (S754_zero false)) (m !! "wz")) with
        | Returned vx, Returned wz => Some (Move vx wz n)
        | _, _ => None
        end
      else if String.eqb kind "safe" then
        Some (SafetyToggle (py_bool (default (JBool true) (m !! "enable"))))
      else if String.eqb kind "ping" then Some (Ping n)
      else if String.eqb kind "led" then
        Some (LedMask match py_int (default (JInt 0) (m !! "mask")) with
                      | Returned k => k
                      | Raised _ => 0
                      end)
      else None
  | _ => None
  end.

Definition command_of_text (n : Z) (data : string) : option OutboundCommand :=
  match json_loads data with
  | Some (JDict m) => command_of n m
  | _ => None
  end.

(** The commands that a sequence of message texts stands for, the
    counter being [n] before the first. *)
Fixpoint commands (n : Z) (texts : list string) : list OutboundCommand :=
  match texts with
  | [] => []
  | data :: more =>
      match command_of_text (Teleop.next_seq n) data with
      | Some c =>
          c :: commands (match seq_of c with
                         | Some _ => Teleop.next_seq n
                         | None => n
                         end) more
      | None => commands n more
      end
  end.

End Translate.

End Spec.

Import Py ReadLines Teleop Spec.

(** ** What is observed of a run *)

(** The sessions that a payload reaches: those whose delivery does not
    fail, in the order of the snapshot of the registry. *)
Definition reached (env : Env) (st : TeleopServer) : list client :=
  filter (λ w, send_raises env w = false) (elements (ws_clients st)).

Definition tx_echo (line : string) (env : Env) (st : TeleopServer) : list event :=
  map (λ w, WsSend w (json_dumps_line "tx" line)) (reached env st).

(** The bytes that [write_line] hands to the port. *)
Definition wire_line (line : string) : bytes :=
  encode_ascii_ignore (rstrip nl line +:+ String nl EmptyString).

(** Whether the port takes a line: it is open and the write goes
    through. *)
Definition write_ok (env : Env) (st : TeleopServer) : bool :=
  match _ser (serial st) with
  | None => false
  | Some _ => negb (write_raises env)
  end.

Definition write_error (env : Env) (st : TeleopServer) : exn :=
  match _ser (serial st) with
  | None => RuntimeError "serial not open"
  | Some _ => SerialException
  end.

(** The state in which a command goes out: the counter has advanced
    when the command carries a sequence number. *)
Definition stamped (cmd : OutboundCommand) (st : TeleopServer) : TeleopServer :=
  match seq_of cmd with
  | Some _ => set_seq (next_seq (seq st)) st
  | None => st
  end.

(** The lines that the bridge rendered for the device, as it logged them. *)
Definition tx_lines (tr : list event) : list string :=
  omap (λ ev, match ev with
              | Logged ToSerial line => Some line
              | _ => None
              end) tr.

(** The sessions whose delivery fails, in the order of the snapshot. *)
Definition failing (env : Env) (st : TeleopServer) : list client :=
  filter (λ w, send_raises env w = true) (elements (ws_clients st)).

(** The byte strings handed to the device, in order. *)
Definition writes (tr : list event) : list bytes :=
  omap (λ ev, match ev with
              | SerWrite data => Some data
              | _ => None
              end) tr.

(** The payloads delivered to the session [w], in order. *)
Definition delivered (w : client) (tr : list event) : list string :=
  omap (λ ev, match ev with
              | WsSend w' payload =>
                  if decide (w' = w) then Some payload else None
              | _ => None
              end) tr.

(** The lines relayed from the device, as the bridge logged them. *)
Definition rx_lines (tr : list event) : list string :=
  omap (λ ev, match ev with
              | Logged ToWs line => Some line
              | _ => None
              end) tr.

(** What relaying the lines [lines] has done when the bridge went from
    [st] to [st'] with the trace [tr]; [live] are sessions whose delivery
    never failed meanwhile. *)
Definition relayed (live : client → Prop) (st : TeleopServer)
    (lines : list string) (st' : TeleopServer) (tr : list event) : Prop :=
  serial st' = serial st ∧ seq st' = seq st ∧
  tx_count st' = tx_count st ∧ last_tx st' = last_tx st ∧
  rx_count st' = rx_count st + Z.of_nat (length lines) ∧
  last_rx st' = (match last lines with
                 | Some line => Some line
                 | None => last_rx st
                 end) ∧
  ws_clients st' ⊆ ws_clients st ∧
  rx_lines tr = lines ∧ writes tr = [] ∧
  ∀ w, live w → w ∈ ws_clients st →
       w ∈ ws_clients st' ∧
       delivered w tr = map (json_dumps_line "rx") lines.

(** The bytes of a rendered line on the wire. *)
Definition on_wire (line : string) : bytes := list_byte_of_string line ++ [LF].

(** ** Example data *)

(** The text of a JSON object with the given members. *)
Definition obj (members : list (string * string)) : string :=
  "{" +:+ String.concat ", " (map (λ kv, json_str kv.1 +:+ ": " +:+ kv.2) members)
      +:+ "}".

Definition ping_text : string := obj [("type", json_str "ping")].
Definition twist_text : string :=
  obj [("type", json_str "twist"); ("vx", "0.5"); ("wz", "-1")].
Definition twist_bad_text : string :=
  obj [("type", json_str "twist"); ("vx", json_str "abc")].
Definition safe_off_text : string :=
  obj [("type", json_str "safe"); ("enable", "0")].
Definition led_bad_text : string :=
  obj [("type", json_str "led"); ("mask", json_str "abc")].

Definition ping_msg : gmap string json := {[ "type" := JStr "ping" ]}.
Definition twist_msg : gmap string json :=
  <[ "wz" := JInt (-1) ]>
    (<[ "vx" := JFloat (S754_finite false 4503599627370496 (-53)) ]>
       {[ "type" := JStr "twist" ]}).
Definition twist_bad_msg : gmap string json :=
  <[ "vx" := JStr "abc" ]> {[ "type" := JStr "twist" ]}.
Definition safe_off_msg : gmap string json :=
  <[ "enable" := JInt 0 ]> {[ "type" := JStr "safe" ]}.
Definition led_bad_msg : gmap string json :=
  <[ "mask" := JStr "abc" ]> {[ "type" := JStr "led" ]}.

(** A runtime that reads the five texts above as CPython does, and
    rejects every other text. *)
Definition example_runtime : PyRuntime := {|
  json_loads data :=
    if String.eqb data ping_text then Some (JDict ping_msg)
    else if String.eqb data twist_text then Some (JDict twist_msg)
    else if String.eqb data twist_bad_text then Some (JDict twist_bad_msg)
    else if String.eqb data safe_off_text then Some (JDict safe_off_msg)
    else if String.eqb data led_bad_text then Some (JDict led_bad_msg)
    else None;
  float_of_str _ := None;
  int_of_str _ := None;
|}.

(** A started bridge with the sessions 3 and 5 connected. *)
Definition bridge : TeleopServer :=
  set_ws_clients {[ 3%nat; 5%nat ]} (start (init "/dev/ttyACM0" 115200)).

(** Everything works; the port fails; the session 3 is dead. *)
Definition all_well : Env :=
  {| write_raises := false; send_raises := λ _, false |}.
Definition port_fails : Env :=
  {| write_raises := true; send_raises := λ _, false |}.
Definition session_3_dead : Env :=
  {| write_raises := false; send_raises := λ w, bool_decide (w = 3%nat) |}.

(** Four ports as [comports()] may list them. *)
Definition example_ports : list Ports.ListPortInfo :=
  [ {| Ports.device := Some "/dev/ttyUSB1"; Ports.description := Some "FTDI" |};
    {| Ports.device := Some "COM3"; Ports.description := None |};
    {| Ports.device := Some "/dev/ttyACM1"; Ports.description := Some "Arduino Micro" |};
    {| Ports.device := Some "/dev/ttyACM0"; Ports.description := Some "ARDUINO" |} ].

(** Messages without their optional fields, and a runtime that reads
    them. *)
Definition bare_twist_text : string := obj [("type", json_str "twist")].
Definition bare_led_text : string := obj [("type", json_str "led")].
Definition bare_runtime : PyRuntime := {|
  json_loads data :=
    if String.eqb data bare_twist_text then Some (JDict {[ "type" := JStr "twist" ]})
    else if String.eqb data bare_led_text then Some (JDict {[ "type" := JStr "led" ]})
    else None;
  float_of_str _ := None;
  int_of_str _ := None;
|}.

(** A run of five messages from the two sessions. *)
Definition example_inputs : list (Env * client * string) :=
  [ (all_well, 3%nat, ping_text); (all_well, 5%nat, safe_off_text);
    (session_3_dead, 3%nat, twist_text); (all_well, 5%nat, led_bad_text);
    (all_well, 3%nat, ping_text) ].

(** Two reads of the port: a line ended by CR LF with the start of the
    next, then its end. *)
Definition example_reads : list (Env * bytes) :=
  [ (session_3_dead, [x4f; x4b; x0d; x0a; x53; x54]);
    (all_well, [x41; x54; x0a]) ].

(** ** Properties of the line assembly *)

Section ReadLinesFacts.

Lemma index_lt b buf n : index b buf = Some n → (n < length buf)%nat.
Proof.
  revert n. induction buf as [|x buf IH]; intros n Hn; simpl in *; [done|].
  destruct (Byte.eqb x b); [injection Hn as <-; lia|].
  destruct (index b buf) as [k|]; simpl in Hn; [|done].
  injection Hn as <-. specialize (IH k eq_refl). lia.
Qed.

Lemma drain_step buf :
  drain buf =
    match index LF buf with
    | None => ([], buf)
    | Some n =>
        let '(lines, rest) := drain (drop (S n) buf) in
        (line_text (take n buf) :: lines, rest)
    end.
Proof.
  rewrite drain_equation_1. unfold inspect.
  enough (Hgen : ∀ o (Ho : index LF buf = o),
             drain_unfold_clause_1 buf (exist _ o Ho) =
             match o with
             | None => ([], buf)
             | Some n =>
                 let '(lines, rest) := drain (drop (S n) buf) in
                 (line_text (take n buf) :: lines, rest)
             end) by apply Hgen.
  intros [n|] Ho; reflexivity.
Qed.

Lemma index_app_l b (l1 l2 : bytes) n :
  index b l1 = Some n → index b (l1 ++ l2) = Some n.
Proof.
  revert n. induction l1 as [|x l1 IH]; intros n; simpl; [done|].
  destruct (Byte.eqb x b); [done|].
  destruct (index b l1) as [k|]; simpl; [|done].
  intros [= <-]. by rewrite (IH k).
Qed.

Lemma index_app_r b (l1 l2 : bytes) :
  index b l1 = None → index b (l1 ++ l2) = (λ n, length l1 + n)%nat <$> index b l2.
Proof.
  induction l1 as [|x l1 IH]; simpl.
  - intros _. by destruct (index b l2).
  - destruct (Byte.eqb x b); [done|].
    destruct (index b l1) as [k|]; simpl; [done|].
    intros _. rewrite IH by done. by destruct (index b l2).
Qed.

Lemma index_here b (l rest : bytes) :
  index b l = None → index b (l ++ b :: rest) = Some (length l).
Proof.
  intros Hl. rewrite index_app_r by done. simpl.
  assert (Byte.eqb b b = true) as -> by by apply Byte.byte_dec_lb.
  simpl. f_equal. lia.
Qed.

(** Induction along the iterations of the drain loop. *)
Lemma drain_ind (P : bytes → Prop) :
  (∀ buf, (∀ n, index LF buf = Some n → P (drop (S n) buf)) → P buf) →
  ∀ buf, P buf.
Proof.
  intros Hstep buf. remember (length buf) as k eqn:Hk.
  revert buf Hk. induction k as [k IH] using lt_wf_ind. intros buf ->.
  apply Hstep. intros n Hn. apply (IH (length (drop (S n) buf))); [|done].
  apply index_lt in Hn. rewrite length_drop. lia.
Qed.

(** A buffer without 0x0A yields nothing and stays as it is. *)
Lemma drain_partial buf : index LF buf = None → drain buf = ([], buf).
Proof. intros H. by rewrite drain_step, H. Qed.

(** The first line of a buffer is yielded first. *)
Lemma drain_line (l rest : bytes) :
  index LF l = None →
  drain (l ++ LF :: rest) =
    let '(lines, tail) := drain rest in (line_text l :: lines, tail).
Proof.
  intros Hl. rewrite drain_step, index_here by done.
  rewrite take_app_length.
  replace (drop (S (length l)) (l ++ LF :: rest)) with rest; [done|].
  change (S (length l)) with (1 + length l)%nat.
  rewrite Nat.add_comm, <- drop_drop, drop_app_length. done.
Qed.

(** A whole buffer of framed lines followed by a partial tail. *)
Lemma drain_frame (lines : list bytes) (tail : bytes) :
  Forall (λ l, index LF l = None) lines → index LF tail = None →
  drain (frame lines ++ tail) = (map line_text lines, tail).
Proof.
  intros Hlines Htail. induction Hlines as [|l lines Hl _ IH]; simpl.
  - by apply drain_partial.
  - unfold frame in *; simpl. rewrite <- !app_assoc; simpl.
    rewrite drain_line by done. by rewrite IH.
Qed.

(** What the drain leaves holds no 0x0A: the loop invariant of
    [read_lines] between two reads. *)
Lemma drain_rest_partial buf : index LF (drain buf).2 = None.
Proof.
  induction buf as [buf IH] using drain_ind.
  rewrite drain_step. destruct (index LF buf) as [n|] eqn:Hn; [|done].
  specialize (IH n eq_refl). by destruct (drain (drop (S n) buf)).
Qed.

(** Chunk independence of the drain: draining a buffer and then what it
    left with more bytes appended is draining the whole. *)
Lemma drain_app (a b : bytes) :
  drain (a ++ b) =
    let '(l1, r1) := drain a in
    let '(l2, r2) := drain (r1 ++ b) in
    (l1 ++ l2, r2).
Proof.
  induction a as [a IH] using drain_ind.
  rewrite (drain_step a). destruct (index LF a) as [n|] eqn:Hn.
  - specialize (IH n eq_refl). pose proof (index_lt _ _ _ Hn) as Hlt.
    rewrite (drain_step (a ++ b)), (index_app_l _ _ _ _ Hn).
    rewrite take_app_le, drop_app_le by lia. rewrite IH.
    destruct (drain (drop (S n) a)) as [l1 r1].
    by destruct (drain (r1 ++ b)) as [l2 r2].
  - by destruct (drain (a ++ b)).
Qed.

Lemma read_lines_from_drain (buf : bytes) (chunks : list bytes) :
  index LF buf = None →
  read_lines_from buf chunks = drain (buf ++ concat chunks).
Proof.
  revert buf. induction chunks as [|chunk more IH]; intros buf Hbuf; simpl.
  - rewrite app_nil_r. by rewrite drain_partial.
  - assert (Hc : on_chunk buf chunk = drain (buf ++ chunk)).
    { destruct chunk; [|done]. simpl. by rewrite app_nil_r, drain_partial. }
    rewrite Hc, app_assoc, (drain_app (buf ++ chunk)).
    pose proof (drain_rest_partial (buf ++ chunk)) as Hrest.
    destruct (drain (buf ++ chunk)) as [l1 r1]; simpl in *.
    by rewrite IH.
Qed.

Lemma read_lines_from_app (buf : bytes) (chunks more : list bytes) :
  read_lines_from buf (chunks ++ more) =
    let '(l1, b1) := read_lines_from buf chunks in
    let '(l2, b2) := read_lines_from b1 more in
    (l1 ++ l2, b2).
Proof.
  revert buf. induction chunks as [|chunk chunks IH]; intros buf; simpl.
  - by destruct (read_lines_from buf more).
  - destruct (on_chunk buf chunk) as [l0 b0]. rewrite IH.
    destruct (read_lines_from b0 chunks) as [l1 b1].
    destruct (read_lines_from b1 more) as [l2 b2].
    by rewrite app_assoc.
Qed.

(** C1.  Whatever the chunk boundaries, the chunks whose concatenation is
    N lines, each ended by 0x0A, followed by a partial tail, yield those
    N lines ([line_text] of each, in order); the tail is what the buffer
    holds afterwards, and the reads that follow go on from it. *)
Theorem read_lines_chunking (lines : list bytes) (tail : bytes)
    (chunks more : list bytes) :
  Forall (λ l, index LF l = None) lines →
  index LF tail = None →
  concat chunks = frame lines ++ tail →
  read_lines chunks = (map line_text lines, tail) ∧
  read_lines (chunks ++ more) =
    (let '(later, buf) := read_lines_from tail more in
     (map line_text lines ++ later, buf)).
Proof.
  intros Hlines Htail Hcat.
  assert (Hrun : read_lines chunks = (map line_text lines, tail)).
  { unfold read_lines. rewrite read_lines_from_drain by done. simpl.
    rewrite Hcat. by apply drain_frame. }
  split; [done|].
  unfold read_lines in *. by rewrite read_lines_from_app, Hrun.
Qed.

End ReadLinesFacts.

(** A chunk boundary inside the first line, a chunk with the end of one
    line, a whole line and the start of the next, and a partial tail. *)
Lemma read_lines_chunking_witness :
  read_lines [[x61]; [x62; x0a; x63; x0a; x64]; [x65; x0a; x66]]
    = (["ab"; "c"; "de"], [x66]) ∧
  read_lines ([[x61]; [x62; x0a; x63; x0a; x64]; [x65; x0a; x66]] ++ [[x0a]])
    = (["ab"; "c"; "de"] ++ ["f"], []).
Proof.
  apply (read_lines_chunking [[x61; x62]; [x63]; [x64; x65]] [x66]
           [[x61]; [x62; x0a; x63; x0a; x64]; [x65; x0a; x66]] [[x0a]]).
  - repeat constructor.
  - reflexivity.
  - reflexivity.
Defined.

(** ** Carriage returns *)

Section Strip.

Lemma rstrip_suffix c s : ∃ k, s = rstrip c s +:+ replicate_char k c.
Proof.
  induction s as [|a s [k IH]]; simpl.
  - by exists 0%nat.
  - destruct (rstrip c s) as [|b r] eqn:Hr.
    + destruct (Ascii.eqb a c) eqn:Hac.
      * apply Ascii.eqb_eq in Hac as ->. exists (S k). simpl in *. by rewrite <- IH.
      * exists k. simpl in *. by rewrite <- IH.
    + exists k. simpl in *. by rewrite <- IH.
Qed.

Lemma rstrip_last c s : last_char (rstrip c s) ≠ Some c.
Proof.
  induction s as [|a s IH]; simpl; [done|].
  destruct (rstrip c s) as [|b r] eqn:Hr.
  - destruct (Ascii.eqb a c) eqn:Hac; simpl; [done|].
    apply Ascii.eqb_neq in Hac. congruence.
  - done.
Qed.

Lemma rstrip_id c s : last_char s ≠ Some c → rstrip c s = s.
Proof.
  induction s as [|a s IH]; simpl; [done|].
  destruct s as [|b r].
  - simpl. intros Hne. destruct (Ascii.eqb a c) eqn:Hac; [|done].
    apply Ascii.eqb_eq in Hac. congruence.
  - intros Hne. by rewrite IH.
Qed.

Lemma rstrip_app_char c s : rstrip c (s +:+ String c EmptyString) = rstrip c s.
Proof.
  induction s as [|a s IH]; simpl.
  - by rewrite Ascii.eqb_refl.
  - by rewrite IH.
Qed.

Lemma decode_app (a b : bytes) :
  decode_ascii_ignore (a ++ b) = decode_ascii_ignore a +:+ decode_ascii_ignore b.
Proof.
  induction a as [|x a IH]; simpl; [done|].
  destruct (byte_is_ascii x); simpl; by rewrite IH.
Qed.

(** C6, as the code has it.  The line yielded for the bytes [raw] before
    a 0x0A is their ASCII text without its trailing carriage returns:
    all of them are stripped, nothing but carriage returns is taken from
    the end of the text, and a line ended by CR LF yields what the line
    ended by LF alone yields. *)
Theorem line_text_strips_trailing_crs (raw : bytes) :
  index LF raw = None →
  read_lines [raw ++ [LF]] = ([line_text raw], []) ∧
  (∃ k, decode_ascii_ignore raw = line_text raw +:+ replicate_char k cr) ∧
  last_char (line_text raw) ≠ Some cr ∧
  read_lines [raw ++ [x0d; LF]] = read_lines [raw ++ [LF]].
Proof.
  intros Hraw.
  assert (Hone : ∀ r, index LF r = None →
                      read_lines [r ++ [LF]] = ([line_text r], [])).
  { intros r Hr. unfold read_lines.
    rewrite read_lines_from_drain by done. simpl. rewrite app_nil_r.
    rewrite drain_line by done. by rewrite drain_partial. }
  split; [by apply Hone|].
  split; [apply rstrip_suffix|].
  split; [apply rstrip_last|].
  change (raw ++ [x0d; LF]) with (raw ++ [x0d] ++ [LF]).
  rewrite app_assoc, !Hone; [|done|by rewrite index_app_r by done].
  unfold line_text. rewrite decode_app. simpl.
  by rewrite rstrip_app_char.
Qed.

End Strip.

Lemma line_text_strips_trailing_crs_witness :
  read_lines [[x61; x0d; x0d] ++ [LF]] = ([line_text [x61; x0d; x0d]], []) ∧
  (∃ k, decode_ascii_ignore [x61; x0d; x0d]
        = line_text [x61; x0d; x0d] +:+ replicate_char k cr) ∧
  last_char (line_text [x61; x0d; x0d]) ≠ Some cr ∧
  read_lines [[x61; x0d; x0d] ++ [x0d; LF]] = read_lines [[x61; x0d; x0d] ++ [LF]].
Proof.
  apply (line_text_strips_trailing_crs [x61; x0d; x0d]). reflexivity.
Defined.

(** C6 as stated fails: of the two carriage returns that end the line
    [a CR CR LF] both are stripped, where the claim has the line keep one. *)
Lemma single_cr_counterexample :
  (read_lines [[x61; x0d; x0d; x0a]]).1 = ["a"] ∧
  spec_strip_single cr (decode_ascii_ignore [x61; x0d; x0d]) = String "a" (String cr EmptyString) ∧
  (read_lines [[x61; x0d; x0d; x0a]]).1
    ≠ [spec_strip_single cr (decode_ascii_ignore [x61; x0d; x0d])].
Proof. repeat split; [reflexivity..|discriminate]. Qed.

(** ** The rendered lines are printable ASCII *)

Section Printable.

Lemma str_forall_app P (a b : string) :
  str_forall P (a +:+ b) = str_forall P a && str_forall P b.
Proof. induction a as [|c a IH]; simpl; [done|]. by rewrite IH, andb_assoc. Qed.

Lemma printable_digit (x : N) : is_printable (pretty_N_char x) = true.
Proof. unfold pretty_N_char. by repeat case_match. Qed.

Lemma printable_pretty_N_go (x : N) (s : string) :
  str_forall is_printable s = true →
  str_forall is_printable (pretty_N_go x s) = true.
Proof.
  revert s. induction (N.lt_wf_0 x) as [x _ IH]; intros s Hs.
  assert (x = 0 ∨ 0 < x)%N as [->|Hpos] by lia.
  - by rewrite pretty_N_go_0.
  - rewrite pretty_N_go_step by done. apply IH.
    + by apply N.div_lt.
    + simpl. by rewrite printable_digit.
Qed.

Lemma printable_pretty_N (x : N) : str_forall is_printable (pretty x) = true.
Proof.
  unfold pretty, pretty_N. case_decide; [done|].
  by apply printable_pretty_N_go.
Qed.

Lemma printable_fmt_int (z : Z) : str_forall is_printable (fmt_int z) = true.
Proof.
  unfold fmt_int, pretty, pretty_Z. destruct z as [|p|p]; [done|..].
  - apply printable_pretty_N.
  - rewrite str_forall_app. simpl. apply printable_pretty_N.
Qed.

Lemma printable_fmt_3f (x : spec_float) : str_forall is_printable (fmt_3f x) = true.
Proof.
  destruct x as [s|s| |s m e]; [by destruct s|by destruct s|done|].
  assert (Hint : ∀ z : Z, str_forall is_printable (pretty z) = true)
    by apply printable_fmt_int.
  unfold fmt_3f, pad3. rewrite !str_forall_app, !Hint.
  destruct s; simpl; by repeat case_match.
Qed.

Lemma render_printable (cmd : OutboundCommand) :
  str_forall is_printable (render cmd) = true.
Proof.
  destruct cmd as [vx wz n|enabled|n|mask]; unfold render.
  - rewrite !str_forall_app, !printable_fmt_3f, printable_fmt_int. done.
  - by destruct enabled.
  - rewrite str_forall_app, printable_fmt_int. done.
  - rewrite str_forall_app, printable_fmt_int. done.
Qed.

Lemma printable_is_ascii (s : string) :
  str_forall is_printable s = true → str_forall char_is_ascii s = true.
Proof.
  induction s as [|c s IH]; simpl; [done|].
  intros [Hc Hs]%andb_prop. rewrite IH by done.
  unfold is_printable in Hc. unfold char_is_ascii.
  apply andb_prop in Hc as [_ Hc]. apply N.leb_le in Hc.
  rewrite andb_true_r. apply N.ltb_lt. lia.
Qed.

Lemma printable_last (s : string) :
  str_forall is_printable s = true → last_char s ≠ Some nl ∧ last_char s ≠ Some cr.
Proof.
  induction s as [|c s IH]; simpl; [done|].
  intros [Hc Hs]%andb_prop. destruct s as [|d s]; [|by apply IH].
  split; intros [= ->]; done.
Qed.

Lemma encode_ascii (s : string) :
  str_forall char_is_ascii s = true →
  encode_ascii_ignore s = list_byte_of_string s.
Proof.
  induction s as [|c s IH]; simpl; [done|].
  intros [Hc Hs]%andb_prop. by rewrite Hc, IH.
Qed.

Lemma encode_app (a b : string) :
  encode_ascii_ignore (a +:+ b) = encode_ascii_ignore a ++ encode_ascii_ignore b.
Proof.
  induction a as [|c a IH]; simpl; [done|].
  destruct (char_is_ascii c); simpl; by rewrite IH.
Qed.

Lemma printable_no_LF (s : string) :
  str_forall is_printable s = true → index LF (list_byte_of_string s) = None.
Proof.
  induction s as [|c s IH]; [done|].
  cbn [str_forall]. intros [Hc Hs]%andb_prop.
  change (index LF (list_byte_of_string (String c s)))
    with (if Byte.eqb (byte_of_ascii c) LF then Some 0%nat
          else S <$> index LF (list_byte_of_string s)).
  rewrite IH by done.
  destruct (Byte.eqb (byte_of_ascii c) LF) eqn:Heq; [|done].
  apply Byte.byte_dec_bl in Heq.
  assert (c = nl) as ->.
  { rewrite <- (ascii_of_byte_of_ascii c). by rewrite Heq. }
  done.
Qed.

End Printable.

(** ** Properties of the bridge *)

Section TeleopFacts.
Context `{PyRuntime}.

Lemma bind_run {A B} (m : Co A) (k : A → Co B) env st :
  (m ≫= k) env st =
    match m env st with
    | (Returned a, st1, tr1) =>
        let '(r, st2, tr2) := k a env st1 in (r, st2, tr1 ++ tr2)
    | (Raised e, st1, tr1) => (Raised e, st1, tr1)
    end.
Proof. reflexivity. Qed.

Lemma bind_returned {A B} (a : A) (k : A → Co B) env st :
  (lift (Returned a) ≫= k) env st = k a env st.
Proof. rewrite bind_run. cbn. by destruct (k a env st) as [[r st'] tr]. Qed.

Lemma bind_raised {A B} (e : exn) (k : A → Co B) env st :
  (lift (Raised e) ≫= k) env st = (Raised e, st, []).
Proof. reflexivity. Qed.

Lemma bind_get {B} (k : TeleopServer → Co B) env st :
  (get ≫= k) env st = k st env st.
Proof. rewrite bind_run. cbn. by destruct (k st env st) as [[r st'] tr]. Qed.

Lemma bind_modify {B} f (k : () → Co B) env st :
  (modify f ≫= k) env st = k () env (f st).
Proof. rewrite bind_run. cbn. by destruct (k () env (f st)) as [[r st'] tr]. Qed.

Lemma echo_loop_run payload (targets : list client) env st :
  for_each targets (λ w, try_except (send_str w payload) (ret tt)) env st =
    (Returned tt, st,
     map (λ w, WsSend w payload)
         (filter (λ w, send_raises env w = false) targets)).
Proof.
  induction targets as [|w targets IH]; [done|].
  cbn [for_each]. rewrite bind_run, filter_cons.
  unfold try_except at 1, send_str at 1.
  destruct (send_raises env w) eqn:Hw.
  - rewrite decide_False by done. unfold ret at 1. by rewrite IH.
  - rewrite decide_True by done. by rewrite IH.
Qed.

Lemma echo_tx_run line env st :
  echo_tx line env st = (Returned tt, st, tx_echo line env st).
Proof.
  unfold echo_tx. rewrite bind_run. cbn. rewrite echo_loop_run. done.
Qed.

Lemma write_line_run line env st :
  write_line line env st =
    match _ser (serial st) with
    | None => (Raised (RuntimeError "serial not open"), st, [])
    | Some _ =>
        if write_raises env then (Raised SerialException, st, [])
        else (Returned tt, st, [SerWrite (wire_line line)])
    end.
Proof.
  unfold write_line. rewrite bind_run. cbn.
  destruct (_ser (serial st)); [|done].
  unfold ser_write. by destruct (write_raises env).
Qed.

Lemma transmit_run line env st :
  transmit line env st =
    if write_ok env st
    then (Returned tt, set_tx (tx_count st + 1) (Some line) st,
          Logged ToSerial line :: SerWrite (wire_line line) :: tx_echo line env st)
    else (Raised (write_error env st), st,
          Logged ToSerial line :: tx_echo line env st).
Proof.
  unfold transmit. rewrite bind_run. cbn [emit].
  unfold try_finally. rewrite bind_run, write_line_run.
  unfold write_ok, write_error.
  destruct (_ser (serial st)) as [port|].
  - destruct (write_raises env); cbn; by rewrite echo_tx_run.
  - cbn. by rewrite echo_tx_run.
Qed.

(** [handle_msg] on a message that stands for a command: the command is
    rendered and transmitted. *)
Lemma handle_msg_command ws data m cmd env st :
  json_loads data = Some (JDict m) →
  command_of (next_seq (seq st)) m = Some cmd →
  handle_msg ws data env st = transmit (render cmd) env (stamped cmd st).
Proof.
  intros Hload Hcmd. unfold handle_msg, stamped. rewrite Hload.
  cbn [py_get]. rewrite bind_returned.
  unfold command_of in Hcmd.
  destruct (m !! "type") as [[| | | |kind| |]|]; try done. cbn [default from_option id is_str].
  destruct (String.eqb kind "twist").
  { rewrite bind_returned.
    destruct (py_float (default (JFloat (S754_zero false)) (m !! "vx"))) as [vx|];
      [|done].
    rewrite !bind_returned.
    destruct (py_float (default (JFloat (S754_zero false)) (m !! "wz"))) as [wz|];
      [|done].
    injection Hcmd as <-. by rewrite bind_returned, bind_modify, bind_get. }
  destruct (String.eqb kind "safe").
  { injection Hcmd as <-. rewrite bind_returned. cbn [render seq_of].
    by destruct (py_bool _). }
  destruct (String.eqb kind "ping").
  { injection Hcmd as <-. by rewrite bind_modify, bind_get. }
  destruct (String.eqb kind "led"); [|done].
  injection Hcmd as <-. rewrite bind_run. unfold try_except at 1.
  rewrite bind_returned. cbn [lift render seq_of].
  destruct (py_int _); cbn;
  destruct (transmit _ env _) as [[r st'] tr]; done.
Qed.

Lemma wire_line_printable (line : string) :
  str_forall is_printable line = true →
  wire_line line = list_byte_of_string line ++ [LF].
Proof.
  intros Hp. unfold wire_line.
  rewrite rstrip_id by by apply printable_last.
  rewrite encode_app, encode_ascii by by apply printable_is_ascii. done.
Qed.

Lemma reached_stamped cmd env st : tx_echo (render cmd) env (stamped cmd st) = tx_echo (render cmd) env st.
Proof. unfold stamped. by destruct (seq_of cmd). Qed.

Lemma write_ok_stamped cmd env st : write_ok env (stamped cmd st) = write_ok env st.
Proof. unfold stamped. by destruct (seq_of cmd). Qed.

(** [handle_msg] on a message that stands for a command, the port
    taking the write. *)
Lemma handle_msg_sent ws data m cmd env st :
  json_loads data = Some (JDict m) →
  command_of (next_seq (seq st)) m = Some cmd →
  write_ok env st = true →
  handle_msg ws data env st =
    (Returned tt,
     set_tx (tx_count st + 1) (Some (render cmd)) (stamped cmd st),
     Logged ToSerial (render cmd)
       :: SerWrite (list_byte_of_string (render cmd) ++ [LF])
       :: tx_echo (render cmd) env st).
Proof.
  intros Hload Hcmd Hok.
  rewrite (handle_msg_command _ _ _ _ _ _ Hload Hcmd), transmit_run.
  rewrite write_ok_stamped, Hok, reached_stamped.
  rewrite wire_line_printable by apply render_printable.
  unfold stamped. by destruct (seq_of cmd).
Qed.

(** C5.  A client message that stands for a command is translated into
    exactly one device line, the rendering of that command
    ([TWIST,<vx>,<wz>,<seq>], [SAFE,<0|1>], [PING,<seq>] or [LED,<mask>]):
    the line is printable ASCII, holds no newline, and is written followed
    by one newline. *)
Theorem handle_msg_renders_command ws data m cmd env st :
  json_loads data = Some (JDict m) →
  command_of (next_seq (seq st)) m = Some cmd →
  write_ok env st = true →
  handle_msg ws data env st =
    (Returned tt,
     set_tx (tx_count st + 1) (Some (render cmd)) (stamped cmd st),
     Logged ToSerial (render cmd)
       :: SerWrite (list_byte_of_string (render cmd) ++ [LF])
       :: tx_echo (render cmd) env st) ∧
  str_forall is_printable (render cmd) = true ∧
  index LF (list_byte_of_string (render cmd)) = None.
Proof.
  intros Hload Hcmd Hok.
  pose proof (render_printable cmd) as Hp.
  split; [by apply (handle_msg_sent _ _ m)|].
  split; [done|by apply printable_no_LF].
Qed.

(** C9.  When the write of a translated command raises, the exception
    propagates, the sent-line statistics stay as they were, nothing
    reaches the device, and the echo has all the same gone to every
    session whose delivery works. *)
Theorem failed_write_still_echoes ws data m cmd env st :
  json_loads data = Some (JDict m) →
  command_of (next_seq (seq st)) m = Some cmd →
  write_ok env st = false →
  let '(r, st', tr) := handle_msg ws data env st in
  r = Raised (write_error env st) ∧
  tx_count st' = tx_count st ∧ last_tx st' = last_tx st ∧
  tr = Logged ToSerial (render cmd)
         :: map (λ w, WsSend w (json_dumps_line "tx" (render cmd))) (reached env st) ∧
  ∀ w, w ∈ ws_clients st → send_raises env w = false →
       WsSend w (json_dumps_line "tx" (render cmd)) ∈ tr.
Proof.
  intros Hload Hcmd Hok.
  rewrite (handle_msg_command _ _ _ _ _ _ Hload Hcmd), transmit_run.
  rewrite write_ok_stamped, Hok, reached_stamped.
  assert (Herr : write_error env (stamped cmd st) = write_error env st).
  { unfold stamped. by destruct (seq_of cmd). }
  rewrite Herr. repeat split; try (unfold stamped; by destruct (seq_of cmd)).
  intros w Hw Hsend. apply list_elem_of_further.
  unfold tx_echo, reached. apply list_elem_of_fmap. exists w. split; [done|].
  apply list_elem_of_filter. split; [done|]. by apply elem_of_elements.
Qed.

(** C8.  An [led] message whose mask cannot be read as an integer is not
    dropped: the mask is 0 and the one line written is [LED,0]. *)
Theorem led_mask_defaults_to_zero ws data m e env st :
  json_loads data = Some (JDict m) →
  m !! "type" = Some (JStr "led") →
  py_int (default (JInt 0) (m !! "mask")) = Raised e →
  write_ok env st = true →
  handle_msg ws data env st =
    (Returned tt,
     set_tx (tx_count st + 1) (Some "LED,0") st,
     Logged ToSerial "LED,0"
       :: SerWrite (list_byte_of_string "LED,0" ++ [LF])
       :: tx_echo "LED,0" env st).
Proof.
  intros Hload Htype Hmask Hok.
  assert (Hcmd : command_of (next_seq (seq st)) m = Some (LedMask 0)).
  { unfold command_of. by rewrite Htype, Hmask. }
  by rewrite (handle_msg_sent ws data m _ env st Hload Hcmd Hok).
Qed.

(** C10.  A [safe] message without [enable] is written as [SAFE,1]; with
    [enable] present the digit is the truth value of the field, so that
    [false], 0, the empty string and [null] give [SAFE,0]. *)
Theorem safe_enable_truthiness ws data m env st :
  json_loads data = Some (JDict m) →
  m !! "type" = Some (JStr "safe") →
  write_ok env st = true →
  let digit := match m !! "enable" with
               | None => "1"
               | Some v => if py_bool v then "1" else "0"
               end in
  handle_msg ws data env st =
    (Returned tt,
     set_tx (tx_count st + 1) (Some ("SAFE," +:+ digit)) st,
     Logged ToSerial ("SAFE," +:+ digit)
       :: SerWrite (list_byte_of_string ("SAFE," +:+ digit) ++ [LF])
       :: tx_echo ("SAFE," +:+ digit) env st) ∧
  py_bool (JBool false) = false ∧ py_bool (JInt 0) = false ∧
  py_bool (JStr "") = false ∧ py_bool JNull = false ∧
  py_bool (JBool true) = true ∧ py_bool (JInt 1) = true ∧
  py_bool (JStr "0") = true.
Proof.
  intros Hload Htype Hok digit. split; [|done].
  assert (Hcmd : command_of (next_seq (seq st)) m
                 = Some (SafetyToggle (py_bool (default (JBool true) (m !! "enable"))))).
  { unfold command_of. by rewrite Htype. }
  rewrite (handle_msg_sent ws data m _ env st Hload Hcmd Hok).
  subst digit. destruct (m !! "enable") as [v|]; [|done].
  cbn [default from_option id]. by destruct (py_bool v).
Qed.

(** The defect behind C3.  A [twist] message whose [vx] is rejected by
    [float] makes [handle_msg] raise: nothing is written or sent and the
    state is untouched, but the message is not passed over in silence. *)
Lemma handle_msg_twist_raises ws data m e env st :
  json_loads data = Some (JDict m) →
  m !! "type" = Some (JStr "twist") →
  py_float (default (JFloat (S754_zero false)) (m !! "vx")) = Raised e →
  handle_msg ws data env st = (Raised e, st, []).
Proof.
  intros Hload Htype Hvx. unfold handle_msg. rewrite Hload.
  cbn [py_get]. rewrite bind_returned, Htype.
  cbn [default from_option id is_str String.eqb Ascii.eqb Bool.eqb].
  by rewrite bind_returned, Hvx.
Qed.

(** C7, as the code has it.  On an open port that takes the write,
    [write_line] writes the ASCII characters of the text without its
    trailing newlines, and then one newline; for an ASCII text that does
    not end in a newline these are the bytes of the text followed by one
    newline. *)
Theorem write_line_bytes line env st :
  write_ok env st = true →
  write_line line env st =
    (Returned tt, st,
     [SerWrite (encode_ascii_ignore (rstrip nl line) ++ [LF])]) ∧
  (str_forall char_is_ascii line = true → last_char line ≠ Some nl →
   encode_ascii_ignore (rstrip nl line) = list_byte_of_string line).
Proof.
  intros Hok. split.
  - rewrite write_line_run. unfold write_ok in Hok.
    destruct (_ser (serial st)); [|done].
    destruct (write_raises env); [done|].
    unfold wire_line. by rewrite encode_app.
  - intros Hascii Hlast. by rewrite rstrip_id, encode_ascii.
Qed.

(** *** The sequence counter *)

Lemma tx_lines_echo line env st : tx_lines (tx_echo line env st) = [].
Proof. unfold tx_echo. by induction (reached env st). Qed.

Lemma tx_lines_transmit line env st :
  tx_lines (transmit line env st).2 = [line].
Proof.
  rewrite transmit_run. destruct (write_ok env st); cbn;
    by rewrite tx_lines_echo.
Qed.

Lemma seq_transmit line env st : seq (transmit line env st).1.2 = seq st.
Proof. rewrite transmit_run. by destruct (write_ok env st). Qed.

(** A message that stands for no command leaves no trace and no change. *)
Lemma handle_msg_no_command ws data env st :
  command_of_text (next_seq (seq st)) data = None →
  ∃ r, handle_msg ws data env st = (r, st, []).
Proof.
  unfold command_of_text, handle_msg.
  destruct (json_loads data) as [[| | | | | |m]|]; try by eexists.
  unfold command_of. cbn [py_get]. rewrite bind_returned.
  destruct (m !! "type") as [[| | | |kind| |]|];
    cbn [default from_option id is_str]; try by eexists.
  destruct (String.eqb kind "twist").
  { rewrite bind_returned.
    destruct (py_float (default (JFloat (S754_zero false)) (m !! "vx"))) as [vx|];
      [|by eexists].
    rewrite !bind_returned.
    destruct (py_float (default (JFloat (S754_zero false)) (m !! "wz"))) as [wz|];
      [done|by eexists]. }
  destruct (String.eqb kind "safe"); [done|].
  destruct (String.eqb kind "ping"); [done|].
  destruct (String.eqb kind "led"); [done|by eexists].
Qed.

Lemma command_of_seq n m cmd k :
  command_of n m = Some cmd → seq_of cmd = Some k → k = n.
Proof.
  unfold command_of. intros Hcmd Hk.
  repeat case_match; simplify_eq/=; done.
Qed.

(** What one call of [handle_msg] renders, and the counter after it. *)
Lemma handle_msg_step ws data env st :
  let '(_, st', tr) := handle_msg ws data env st in
  match command_of_text (next_seq (seq st)) data with
  | Some cmd =>
      tx_lines tr = [render cmd] ∧
      seq st' = match seq_of cmd with
                | Some _ => next_seq (seq st)
                | None => seq st
                end
  | None => tx_lines tr = [] ∧ seq st' = seq st
  end.
Proof.
  destruct (command_of_text (next_seq (seq st)) data) as [cmd|] eqn:Hcmd.
  - unfold command_of_text in Hcmd.
    destruct (json_loads data) as [[| | | | | |m]|] eqn:Hload; try done.
    rewrite (handle_msg_command _ _ _ _ _ _ Hload Hcmd).
    pose proof (tx_lines_transmit (render cmd) env (stamped cmd st)) as Hl.
    pose proof (seq_transmit (render cmd) env (stamped cmd st)) as Hs.
    destruct (transmit _ env _) as [[r st'] tr]. cbn in Hl, Hs.
    split; [done|]. rewrite Hs. unfold stamped. by destruct (seq_of cmd).
  - destruct (handle_msg_no_command ws data env st Hcmd) as [r ->]. done.
Qed.

Lemma next_seq_mod n : next_seq n = (n + 1) mod 2 ^ 32.
Proof. unfold next_seq. by rewrite <- (Z.land_ones (n + 1) 32). Qed.

Lemma iter_next_seq k n :
  Nat.iter (S k) next_seq n = (n + Z.of_nat (S k)) mod 2 ^ 32.
Proof.
  induction k as [|k IH].
  - cbn. apply next_seq_mod.
  - rewrite Nat.iter_succ, IH, next_seq_mod.
    rewrite Zplus_mod_idemp_l. f_equal. lia.
Qed.

Lemma commands_numbers n (texts : list string) :
  omap seq_of (commands n texts) =
    map (λ k, Nat.iter k next_seq n)
        (List.seq 1 (length (omap seq_of (commands n texts)))).
Proof.
  revert n. induction texts as [|data more IH]; intros n; [done|].
  cbn [commands].
  destruct (command_of_text (next_seq n) data) as [cmd|] eqn:Hcmd; [|apply IH].
  cbn [omap list_omap]. destruct (seq_of cmd) as [k|] eqn:Hk; [|apply IH].
  assert (k = next_seq n) as ->.
  { unfold command_of_text in Hcmd. repeat case_match; try done.
    by eapply command_of_seq. }
  cbn [length List.seq map]. f_equal. rewrite IH at 1.
  rewrite <- (seq_shift _ 1), map_map. apply map_ext. intros j.
  by rewrite Nat.iter_succ_r.
Qed.

Lemma serve_run (inputs : list (Env * client * string)) st :
  let '(st', tr) := serve inputs st in
  let cmds := commands (seq st) (map snd inputs) in
  tx_lines tr = map render cmds ∧
  seq st' = Nat.iter (length (omap seq_of cmds)) next_seq (seq st).
Proof.
  revert st. induction inputs as [|[[env ws] data] more IH]; intros st; [done|].
  cbn [serve map snd commands].
  pose proof (handle_msg_step ws data env st) as Hstep.
  destruct (handle_msg ws data env st) as [[r st1] tr1].
  set (st1' := match r with
               | Returned _ => st1
               | Raised _ => set_ws_clients (ws_clients st1 ∖ {[ws]}) st1
               end).
  assert (Hseq : seq st1' = seq st1) by (subst st1'; by destruct r).
  specialize (IH st1'). destruct (serve more st1') as [st2 tr2].
  cbn zeta in IH. destruct IH as [IHl IHs]. rewrite Hseq in IHl, IHs.
  unfold tx_lines in *. rewrite omap_app.
  destruct (command_of_text (next_seq (seq st)) data) as [cmd|].
  - destruct Hstep as [-> Hs1]. rewrite Hs1 in IHl, IHs. cbn zeta.
    cbn [map omap list_omap]. rewrite IHl. split; [done|].
    rewrite IHs. destruct (seq_of cmd); [|done].
    cbn [length]. by rewrite Nat.iter_succ_r.
  - destruct Hstep as [-> Hs1]. rewrite Hs1 in IHl, IHs. by cbn zeta.
Qed.

(** C2.  Over any sequence of handled messages, the lines rendered are
    those of the commands the messages stand for, and the sequence
    numbers of the [TWIST] and [PING] lines are the successors, modulo
    2^32, of the counter: each is the one before plus one modulo 2^32, and
    differs from it.  A call advances the counter only for a command that
    carries a sequence number; [safe] and [led] leave it unchanged. *)
Theorem sequence_numbers_advance (inputs : list (Env * client * string)) st :
  let '(st', tr) := serve inputs st in
  let cmds := commands (seq st) (map snd inputs) in
  let numbers := omap seq_of cmds in
  tx_lines tr = map render cmds ∧
  numbers = map (λ k, (seq st + Z.of_nat k) mod 2 ^ 32)
                (List.seq 1 (length numbers)) ∧
  (∀ i a b, numbers !! i = Some a → numbers !! S i = Some b →
            b = (a + 1) mod 2 ^ 32 ∧ b ≠ a) ∧
  seq st' = Nat.iter (length numbers) next_seq (seq st) ∧
  (∀ env ws data s,
     seq (handle_msg ws data env s).1.2 =
       match command_of_text (next_seq (seq s)) data with
       | Some (Move _ _ _) | Some (Ping _) => (seq s + 1) mod 2 ^ 32
       | Some (SafetyToggle _) | Some (LedMask _) | None => seq s
       end).
Proof.
  pose proof (serve_run inputs st) as Hrun.
  destruct (serve inputs st) as [st' tr]. cbn zeta in *.
  destruct Hrun as [Hlines Hseq].
  set (numbers := omap seq_of (commands (seq st) (map snd inputs))) in *.
  assert (Hnum : numbers = map (λ k, (seq st + Z.of_nat k) mod 2 ^ 32)
                               (List.seq 1 (length numbers))).
  { subst numbers. rewrite commands_numbers at 1.
    apply map_ext_in. intros k Hk. apply in_seq in Hk.
    destruct k as [|k]; [lia|]. apply iter_next_seq. }
  split; [done|]. split; [done|]. split; [|split; [done|]].
  - intros i a b Ha Hb. rewrite Hnum in Ha, Hb.
    rewrite list_lookup_fmap in Ha, Hb.
    destruct (List.seq 1 (length numbers) !! i) as [ki|] eqn:Hi; [|done].
    destruct (List.seq 1 (length numbers) !! S i) as [kj|] eqn:Hj; [|done].
    apply lookup_seq in Hi as [-> _]. apply lookup_seq in Hj as [-> _].
    change (Some ((seq st + Z.of_nat (1 + i)) mod 2 ^ 32) = Some a) in Ha.
    change (Some ((seq st + Z.of_nat (1 + S i)) mod 2 ^ 32) = Some b) in Hb.
    injection Ha as <-. injection Hb as <-.
    change (1 + S i)%nat with (S (S i)). change (1 + i)%nat with (S i).
    assert (Hsucc : (seq st + Z.of_nat (S (S i))) mod 2 ^ 32
                    = ((seq st + Z.of_nat (S i)) mod 2 ^ 32 + 1) mod 2 ^ 32).
    { rewrite Zplus_mod_idemp_l. f_equal. lia. }
    split; [done|]. rewrite Hsucc.
    pose proof (Z.mod_pos_bound (seq st + Z.of_nat (S i)) (2 ^ 32) eq_refl) as Hbound.
    set (a := (seq st + Z.of_nat (S i)) mod 2 ^ 32) in *.
    destruct (decide (a + 1 < 2 ^ 32)) as [Hlt|Hge].
    + rewrite Z.mod_small by lia. lia.
    + assert (a + 1 = 2 ^ 32) as -> by lia. rewrite Z.mod_same by done. lia.
  - intros env ws data s.
    pose proof (handle_msg_step ws data env s) as Hstep.
    destruct (handle_msg ws data env s) as [[r s'] tr']. cbn.
    destruct (command_of_text (next_seq (seq s)) data) as [[| | |]|];
      destruct Hstep as [_ ->]; cbn; by rewrite ?next_seq_mod.
Qed.

(** *** The telemetry fan-out *)

Lemma deliver_rx_run (targets : list client) payload env st :
  deliver_rx targets payload env st =
    (Returned (filter (λ w, send_raises env w = true) targets), st,
     map (λ w, WsSend w payload)
         (filter (λ w, send_raises env w = false) targets)).
Proof.
  induction targets as [|w targets IH]; [done|].
  cbn [deliver_rx]. rewrite bind_run, !filter_cons.
  unfold try_except at 1. rewrite bind_run. unfold send_str at 1.
  destruct (send_raises env w) eqn:Hw.
  - rewrite decide_True, decide_False by done. cbn.
    rewrite bind_run, IH. cbn. by rewrite app_nil_r.
  - rewrite decide_False, decide_True by done. cbn.
    rewrite bind_run, IH. cbn. by rewrite app_nil_r.
Qed.

Lemma discard_loop_run (dead : list client) env st :
  for_each dead
    (λ ws, modify (λ st, set_ws_clients (ws_clients st ∖ {[ws]}) st)) env st =
    (Returned tt, set_ws_clients (ws_clients st ∖ list_to_set dead) st, []).
Proof.
  revert st. induction dead as [|w dead IH]; intros st.
  - destruct st. unfold set_ws_clients. cbn.
    by rewrite difference_empty_L.
  - cbn [for_each]. rewrite bind_modify, IH.
    unfold set_ws_clients. cbn.
    by rewrite difference_difference_l_L.
Qed.

Lemma telemetry_step_run line env st :
  telemetry_step line env st =
    (Returned tt,
     set_ws_clients (ws_clients st ∖ list_to_set (failing env st))
       (set_rx (rx_count st + 1) (Some line) st),
     Logged ToWs line
       :: map (λ w, WsSend w (json_dumps_line "rx" line)) (reached env st)).
Proof.
  unfold telemetry_step. rewrite bind_run. cbn [emit].
  rewrite bind_modify, bind_get. cbn [ws_clients set_rx].
  unfold failing, reached. case_bool_decide as Hempty.
  - rewrite Hempty, elements_empty. unfold set_ws_clients, set_rx. cbn.
    by rewrite Hempty, difference_empty_L.
  - rewrite bind_run, deliver_rx_run, discard_loop_run. cbn.
    by rewrite app_nil_r.
Qed.

(** C4.  When the delivery of a telemetry line fails for exactly one of
    the registered sessions, the payload still reaches each of the M-1
    others, once, and the failing session is out of the registry
    afterwards. *)
Theorem broadcast_isolates_failure line env st (dead : client) :
  dead ∈ ws_clients st →
  (∀ w, w ∈ ws_clients st → (send_raises env w = true ↔ w = dead)) →
  let '(r, st', tr) := telemetry_step line env st in
  r = Returned tt ∧
  ws_clients st' = ws_clients st ∖ {[dead]} ∧
  ∃ targets,
    tr = Logged ToWs line
           :: map (λ w, WsSend w (json_dumps_line "rx" line)) targets ∧
    targets ≡ₚ elements (ws_clients st ∖ {[dead]}) ∧
    length targets = (size (ws_clients st) - 1)%nat.
Proof.
  intros Hdead Hone. rewrite telemetry_step_run.
  split; [done|]. split.
  - cbn. apply set_eq. intros w.
    rewrite !elem_of_difference, elem_of_list_to_set, elem_of_singleton.
    unfold failing. rewrite list_elem_of_filter, elem_of_elements.
    split.
    + intros [Hw Hnot]. split; [done|]. intros ->. apply Hnot. split; [|done].
      by apply Hone.
    + intros [Hw Hne]. split; [done|]. intros [Hr _]. by apply Hone in Hr.
  - exists (reached env st). split; [done|].
    assert (Hperm : reached env st ≡ₚ elements (ws_clients st ∖ {[dead]})).
    { apply NoDup_Permutation.
      - apply NoDup_filter, NoDup_elements.
      - apply NoDup_elements.
      - intros w. unfold reached.
        rewrite list_elem_of_filter, !elem_of_elements, elem_of_difference,
          elem_of_singleton.
        split.
        + intros [Hok Hw]. split; [done|]. intros ->.
          assert (send_raises env dead = true) by by apply Hone.
          congruence.
        + intros [Hw Hne]. split; [|done].
          destruct (send_raises env w) eqn:Hr; [|done].
          by apply Hone in Hr. }
    split; [done|]. rewrite Hperm.
    change (length (elements (ws_clients st ∖ {[dead]})))
      with (size (ws_clients st ∖ {[dead]})).
    rewrite size_difference by by apply singleton_subseteq_l.
    by rewrite size_singleton.
Qed.

End TeleopFacts.

(** ** What a run does to the device and to the statistics *)

Section RunFacts.
Context `{PyRuntime}.

Lemma writes_echo line env st : writes (tx_echo line env st) = [].
Proof. unfold tx_echo. by induction (reached env st). Qed.

Lemma write_ok_serial env st st' :
  serial st' = serial st → write_ok env st' = write_ok env st.
Proof. unfold write_ok. by intros ->. Qed.

(** One call of [handle_msg], field by field. *)
Lemma handle_msg_effect ws data env st :
  let '(r, st', tr) := handle_msg ws data env st in
  serial st' = serial st ∧ ws_clients st' = ws_clients st ∧
  rx_count st' = rx_count st ∧ last_rx st' = last_rx st ∧
  match command_of_text (next_seq (seq st)) data with
  | Some cmd =>
      if write_ok env st
      then r = Returned tt ∧ writes tr = [on_wire (render cmd)] ∧
           tx_count st' = tx_count st + 1 ∧ last_tx st' = Some (render cmd)
      else r = Raised (write_error env st) ∧ writes tr = [] ∧
           tx_count st' = tx_count st ∧ last_tx st' = last_tx st
  | None => writes tr = [] ∧ st' = st
  end.
Proof.
  destruct (command_of_text (next_seq (seq st)) data) as [cmd|] eqn:Hcmd.
  - unfold command_of_text in Hcmd.
    destruct (json_loads data) as [[| | | | | |m]|] eqn:Hload; try done.
    rewrite (handle_msg_command _ _ _ _ _ _ Hload Hcmd), transmit_run.
    assert (Hs : serial (stamped cmd st) = serial st)
      by (unfold stamped; by destruct (seq_of cmd)).
    rewrite (write_ok_serial _ _ _ Hs).
    unfold write_error. rewrite Hs.
    destruct (write_ok env st); cbn;
      rewrite writes_echo, ?wire_line_printable by apply render_printable;
      unfold stamped; destruct (seq_of cmd); done.
  - destruct (handle_msg_no_command ws data env st Hcmd) as [r ->]. done.
Qed.

Lemma close_closed (s : BrainstemSerial) :
  (∀ port, _ser s = Some port → is_open port = true) → _ser (close s) = None.
Proof.
  unfold close. intros Hopen. destruct (_ser s) as [port|] eqn:Hs; [|done].
  by rewrite (Hopen port eq_refl).
Qed.

(** X4.  Closing is idempotent, and once the port is closed no message
    reaches the device: whatever messages follow, nothing is written, the
    sent-line statistics stand still and the port stays closed. *)
Theorem closed_port_takes_no_write (st : TeleopServer)
    (inputs : list (Env * client * string)) :
  (∀ port, _ser (serial st) = Some port → is_open port = true) →
  close (close (serial st)) = close (serial st) ∧
  let '(st', tr) := serve inputs (set_serial (close (serial st)) st) in
  writes tr = [] ∧ tx_count st' = tx_count st ∧ last_tx st' = last_tx st ∧
  _ser (serial st') = None.
Proof.
  intros Hopen. pose proof (close_closed _ Hopen) as Hclosed. split.
  { unfold close at 1. by rewrite Hclosed. }
  assert (Hgen : ∀ st0, _ser (serial st0) = None →
            let '(st', tr) := serve inputs st0 in
            writes tr = [] ∧ tx_count st' = tx_count st0 ∧
            last_tx st' = last_tx st0 ∧ _ser (serial st') = None).
  { clear. induction inputs as [|[[env ws] data] more IH]; intros st0 Hser; [done|].
    cbn [serve].
    pose proof (handle_msg_effect ws data env st0) as Heff.
    destruct (handle_msg ws data env st0) as [[r st1] tr1].
    destruct Heff as (Hs & _ & _ & _ & Hcase).
    assert (Hko : write_ok env st0 = false) by (unfold write_ok; by rewrite Hser).
    rewrite Hko in Hcase.
    set (st1' := match r with
                 | Returned _ => st1
                 | Raised _ => set_ws_clients (ws_clients st1 ∖ {[ws]}) st1
                 end).
    assert (Hsame : serial st1' = serial st1 ∧ tx_count st1' = tx_count st1 ∧
                    last_tx st1' = last_tx st1) by (subst st1'; by destruct r).
    destruct Hsame as (Hs1 & Ht1 & Hl1).
    specialize (IH st1'). rewrite Hs1, Hs in IH. specialize (IH Hser).
    destruct (serve more st1') as [st2 tr2].
    destruct IH as (Hw & Ht & Hl & Hc).
    unfold writes in *. rewrite omap_app, Hw, Ht, Hl, Ht1, Hl1.
    destruct (command_of_text (next_seq (seq st0)) data).
    - destruct Hcase as (_ & -> & -> & ->). done.
    - destruct Hcase as (-> & ->). done. }
  specialize (Hgen (set_serial (close (serial st)) st) Hclosed).
  by destruct (serve inputs _) as [st' tr].
Qed.

(** X5.  [handle_msg] leaves the registry, the port and the received-line
    statistics as they are, whatever the message and whatever fails: a
    session whose echo cannot be delivered stays registered. *)
Theorem handle_msg_keeps_registry ws data env st :
  let '(_, st', _) := handle_msg ws data env st in
  ws_clients st' = ws_clients st ∧ serial st' = serial st ∧
  rx_count st' = rx_count st ∧ last_rx st' = last_rx st.
Proof.
  pose proof (handle_msg_effect ws data env st) as Heff.
  destruct (handle_msg ws data env st) as [[r st'] tr].
  by destruct Heff as (? & ? & ? & ? & _).
Qed.

(** X6.  Over any run, [tx_count] grows by the number of lines handed to
    the device, and [last_tx] is the last of them (it keeps its value
    when none was written). *)
Theorem tx_count_counts_writes (inputs : list (Env * client * string)) st :
  let '(st', tr) := serve inputs st in
  tx_count st' = tx_count st + Z.of_nat (length (writes tr)) ∧
  match last (writes tr) with
  | Some data => ∃ line, last_tx st' = Some line ∧ data = on_wire line
  | None => last_tx st' = last_tx st
  end.
Proof.
  revert st. induction inputs as [|[[env ws] data] more IH]; intros st.
  { cbn. split; [lia|done]. }
  cbn [serve].
  pose proof (handle_msg_effect ws data env st) as Heff.
  destruct (handle_msg ws data env st) as [[r st1] tr1].
  destruct Heff as (_ & _ & _ & _ & Hcase).
  set (st1' := match r with
               | Returned _ => st1
               | Raised _ => set_ws_clients (ws_clients st1 ∖ {[ws]}) st1
               end).
  assert (Hsame : tx_count st1' = tx_count st1 ∧ last_tx st1' = last_tx st1)
    by (subst st1'; by destruct r).
  destruct Hsame as (Ht1 & Hl1).
  specialize (IH st1'). destruct (serve more st1') as [st2 tr2].
  destruct IH as (Ht & Hl). rewrite Ht1 in Ht. rewrite Hl1 in Hl.
  unfold writes in *. rewrite omap_app, length_app, last_app.
  assert (Hstep : tx_count st1 = tx_count st + Z.of_nat (length (omap
             (λ ev, match ev with SerWrite d => Some d | _ => None end) tr1)) ∧
           match last (omap
             (λ ev, match ev with SerWrite d => Some d | _ => None end) tr1) with
           | Some d => ∃ line, last_tx st1 = Some line ∧ d = on_wire line
           | None => last_tx st1 = last_tx st
           end).
  { destruct (command_of_text (next_seq (seq st)) data) as [cmd|].
    - destruct (write_ok env st).
      + destruct Hcase as (_ & -> & -> & ->). cbn. split; [lia|by eexists].
      + destruct Hcase as (_ & -> & -> & ->). cbn. split; [lia|done].
    - destruct Hcase as (-> & ->). cbn. split; [lia|done]. }
  destruct Hstep as (Hc1 & Hlast1). split; [lia|].
  destruct (last (omap _ tr2)) as [d2|]; [done|].
  destruct (last (omap _ tr1)) as [d1|]; [by rewrite Hl|].
  by rewrite Hl.
Qed.

(** X7.  While the port is open and takes every write, no command is
    lost, repeated or reordered: the byte strings handed to the device
    are the rendered lines of the commands that the messages stand for,
    each followed by one newline, in the order of the messages. *)
Theorem every_command_is_written (inputs : list (Env * client * string)) st :
  _ser (serial st) ≠ None →
  Forall (λ i, write_raises i.1.1 = false) inputs →
  let '(_, tr) := serve inputs st in
  writes tr = map (λ cmd, on_wire (render cmd))
                  (commands (seq st) (map snd inputs)) ∧
  concat (writes tr) =
    frame (map (λ cmd, list_byte_of_string (render cmd))
               (commands (seq st) (map snd inputs))).
Proof.
  intros Hser Hall.
  assert (Hw : let '(_, tr) := serve inputs st in
               writes tr = map (λ cmd, on_wire (render cmd))
                               (commands (seq st) (map snd inputs))).
  { revert st Hser. induction Hall as [|[[env ws] data] more Henv _ IH];
      intros st Hser; [done|].
    cbn [serve map snd commands]. cbn in Henv.
    pose proof (handle_msg_effect ws data env st) as Heff.
    pose proof (handle_msg_step ws data env st) as Hstep.
    destruct (handle_msg ws data env st) as [[r st1] tr1].
    destruct Heff as (Hs & _ & _ & _ & Hcase).
    assert (Hok : write_ok env st = true).
    { unfold write_ok. destruct (_ser (serial st)); [by rewrite Henv|done]. }
    rewrite Hok in Hcase.
    set (st1' := match r with
                 | Returned _ => st1
                 | Raised _ => set_ws_clients (ws_clients st1 ∖ {[ws]}) st1
                 end).
    assert (Hsame : serial st1' = serial st1 ∧ seq st1' = seq st1)
      by (subst st1'; by destruct r).
    destruct Hsame as (Hs1 & Hq1).
    specialize (IH st1'). rewrite Hs1, Hs, Hq1 in IH. specialize (IH Hser).
    destruct (serve more st1') as [st2 tr2].
    unfold writes in *. rewrite omap_app, IH.
    destruct (command_of_text (next_seq (seq st)) data) as [cmd|].
    - destruct Hcase as (_ & -> & _). destruct Hstep as (_ & ->). done.
    - destruct Hcase as (-> & ->). done. }
  destruct (serve inputs st) as [st' tr]. split; [done|].
  rewrite Hw. unfold frame. by rewrite map_map.
Qed.

(** X8.  What [handle_msg] does with a message that is no command: a
    text that is not JSON and an object of an unknown or missing type are
    passed over in silence; a JSON value that is not an object raises
    [AttributeError]; a [twist] whose [vx] or [wz] is rejected by [float]
    raises that error.  In each case nothing is written or sent and the
    state, the counter included, is as before. *)
Theorem handle_msg_not_a_command ws data env st :
  (json_loads data = None → handle_msg ws data env st = (Returned tt, st, [])) ∧
  (∀ m, json_loads data = Some (JDict m) →
        (∀ kind, m !! "type" = Some (JStr kind) →
                 kind ≠ "twist" ∧ kind ≠ "safe" ∧ kind ≠ "ping" ∧ kind ≠ "led") →
        handle_msg ws data env st = (Returned tt, st, [])) ∧
  (∀ v, json_loads data = Some v → (∀ m, v ≠ JDict m) →
        handle_msg ws data env st = (Raised AttributeError, st, [])) ∧
  (∀ m e, json_loads data = Some (JDict m) →
          m !! "type" = Some (JStr "twist") →
          py_float (default (JFloat (S754_zero false)) (m !! "vx")) = Raised e ∨
          (∃ vx, py_float (default (JFloat (S754_zero false)) (m !! "vx")) = Returned vx ∧
                 py_float (default (JFloat (S754_zero false)) (m !! "wz")) = Raised e) →
          handle_msg ws data env st = (Raised e, st, [])).
Proof.
  unfold handle_msg. repeat split.
  - by intros ->.
  - intros m -> Hkind. cbn [py_get]. rewrite bind_returned.
    destruct (m !! "type") as [[| | | |kind| |]|];
      cbn [default from_option id is_str]; try done.
    destruct (Hkind kind eq_refl) as (H1 & H2 & H3 & H4).
    apply String.eqb_neq in H1, H2, H3, H4. by rewrite H1, H2, H3, H4.
  - intros v -> Hv. destruct v; try done. by destruct (Hv m).
  - intros m e -> Htype Hbad. cbn [py_get]. rewrite bind_returned, Htype.
    cbn [default from_option id is_str String.eqb Ascii.eqb Bool.eqb].
    rewrite bind_returned.
    destruct Hbad as [Hvx|(vx & Hvx & Hwz)]; rewrite Hvx; [done|].
    by rewrite !bind_returned, Hwz.
Qed.

(** X9.  Missing fields take their defaults: a [twist] without [vx] and
    [wz] is sent with both at zero, an [led] without [mask] with the mask
    0, each with the statistics advanced by one line. *)
Theorem missing_fields_default ws data m env st :
  json_loads data = Some (JDict m) →
  write_ok env st = true →
  (m !! "type" = Some (JStr "twist") → m !! "vx" = None → m !! "wz" = None →
   let line := "TWIST,0.000,0.000," +:+ fmt_int (next_seq (seq st)) in
   handle_msg ws data env st =
     (Returned tt,
      set_tx (tx_count st + 1) (Some line) (set_seq (next_seq (seq st)) st),
      Logged ToSerial line :: SerWrite (on_wire line) :: tx_echo line env st)) ∧
  (m !! "type" = Some (JStr "led") → m !! "mask" = None →
   handle_msg ws data env st =
     (Returned tt, set_tx (tx_count st + 1) (Some "LED,0") st,
      Logged ToSerial "LED,0" :: SerWrite (on_wire "LED,0")
        :: tx_echo "LED,0" env st)).
Proof.
  intros Hload Hok. split.
  - intros Htype Hvx Hwz line.
    assert (Hcmd : command_of (next_seq (seq st)) m
              = Some (Move (S754_zero false) (S754_zero false) (next_seq (seq st)))).
    { unfold command_of. by rewrite Htype, Hvx, Hwz. }
    by rewrite (handle_msg_sent ws data m _ env st Hload Hcmd Hok).
  - intros Htype Hmask.
    assert (Hcmd : command_of (next_seq (seq st)) m = Some (LedMask 0)).
    { unfold command_of. by rewrite Htype, Hmask. }
    by rewrite (handle_msg_sent ws data m _ env st Hload Hcmd Hok).
Qed.

(** X10.  The counter stays a 32-bit number: from a counter within
    [0, 2^32) every run ends with the counter within [0, 2^32). *)
Theorem seq_stays_in_range (inputs : list (Env * client * string)) st :
  0 ≤ seq st < 2 ^ 32 →
  0 ≤ seq (serve inputs st).1 < 2 ^ 32.
Proof.
  revert st. induction inputs as [|[[env ws] data] more IH]; intros st Hst; [done|].
  cbn [serve].
  pose proof (handle_msg_step ws data env st) as Hstep.
  destruct (handle_msg ws data env st) as [[r st1] tr1].
  set (st1' := match r with
               | Returned _ => st1
               | Raised _ => set_ws_clients (ws_clients st1 ∖ {[ws]}) st1
               end).
  assert (Hq1 : seq st1' = seq st1) by (subst st1'; by destruct r).
  assert (Hr : 0 ≤ seq st1' < 2 ^ 32).
  { rewrite Hq1. destruct (command_of_text (next_seq (seq st)) data) as [cmd|].
    - destruct Hstep as (_ & ->). destruct (seq_of cmd); [|done].
      rewrite next_seq_mod. by apply Z.mod_pos_bound.
    - by destruct Hstep as (_ & ->). }
  specialize (IH st1' Hr). by destruct (serve more st1') as [st2 tr2].
Qed.

End RunFacts.

(** ** The telemetry relay *)

Section TelemetryFacts.
Context `{PyRuntime}.

Lemma relayed_nil live st : relayed live st [] st [].
Proof. unfold relayed. cbn. repeat split; (done || lia). Qed.

Lemma relayed_app live st l1 st1 tr1 l2 st2 tr2 :
  relayed live st l1 st1 tr1 → relayed live st1 l2 st2 tr2 →
  relayed live st (l1 ++ l2) st2 (tr1 ++ tr2).
Proof.
  intros (Ha1 & Ha2 & Ha3 & Ha4 & Ha5 & Ha6 & Ha7 & Ha8 & Ha9 & Ha10)
         (Hb1 & Hb2 & Hb3 & Hb4 & Hb5 & Hb6 & Hb7 & Hb8 & Hb9 & Hb10).
  unfold relayed, rx_lines, writes, delivered in *.
  rewrite !omap_app, length_app, last_app, Ha8, Hb8, Ha9, Hb9.
  split_and!; try congruence.
  - lia.
  - rewrite Hb6, Ha6. by destruct (last l2).
  - by etrans.
  - done.
  - intros w Hlive Hw. destruct (Ha10 w Hlive Hw) as [Hw1 Hd1].
    destruct (Hb10 w Hlive Hw1) as [Hw2 Hd2].
    split; [done|]. by rewrite omap_app, map_app, Hd1, Hd2.
Qed.

Lemma rx_lines_fan_out payload (targets : list client) :
  rx_lines (map (λ w, WsSend w payload) targets) = [].
Proof. induction targets as [|w l IH]; [done|exact IH]. Qed.

Lemma writes_fan_out payload (targets : list client) :
  writes (map (λ w, WsSend w payload) targets) = [].
Proof. induction targets as [|w l IH]; [done|exact IH]. Qed.

Lemma delivered_fan_out w payload (targets : list client) :
  NoDup targets →
  delivered w (map (λ w', WsSend w' payload) targets) =
    if decide (w ∈ targets) then [payload] else [].
Proof.
  unfold delivered. induction 1 as [|w' targets Hnot _ IH]; [done|].
  cbn. destruct (decide (w' = w)) as [->|Hne].
  - rewrite IH. rewrite decide_False by done.
    rewrite decide_True by by left. done.
  - rewrite IH. destruct (decide (w ∈ targets)) as [Hin|Hout].
    + rewrite decide_True by by right. done.
    + rewrite decide_False; [done|]. by intros [->|?]%elem_of_cons.
Qed.

Lemma telemetry_step_relayed (live : client → Prop) line env st :
  (∀ w, live w → send_raises env w = false) →
  ∃ st' tr, telemetry_step line env st = (Returned tt, st', tr) ∧
            relayed live st [line] st' tr.
Proof.
  intros Hlive. rewrite telemetry_step_run. eexists _, _. split; [done|].
  unfold relayed. cbn [serial seq tx_count last_tx rx_count last_rx ws_clients
                       set_ws_clients set_rx length last].
  pose proof (rx_lines_fan_out (json_dumps_line "rx" line) (reached env st)) as Hrx.
  pose proof (writes_fan_out (json_dumps_line "rx" line) (reached env st)) as Hwr.
  split_and!; [done|done|done|done|lia|done| | | |].
  - by apply subseteq_difference_l.
  - change (rx_lines (Logged ToWs line :: ?l)) with (line :: rx_lines l).
    by rewrite Hrx.
  - exact Hwr.
  - intros w Hw Hin. split.
    + apply elem_of_difference. split; [done|].
      rewrite elem_of_list_to_set. unfold failing.
      rewrite list_elem_of_filter. intros [Hf _].
      rewrite (Hlive w) in Hf by done. done.
    + change (delivered w (Logged ToWs line :: ?l)) with (delivered w l).
      rewrite delivered_fan_out by apply NoDup_filter, NoDup_elements.
      rewrite decide_True; [done|].
      unfold reached. apply list_elem_of_filter. split; [by apply Hlive|].
      by apply elem_of_elements.
Qed.

Lemma relay_lines_relayed (live : client → Prop) lines env st :
  (∀ w, live w → send_raises env w = false) →
  ∃ st' tr, for_each lines telemetry_step env st = (Returned tt, st', tr) ∧
            relayed live st lines st' tr.
Proof.
  intros Hlive. revert st. induction lines as [|line lines IH]; intros st.
  - eexists _, _. split; [done|]. apply relayed_nil.
  - cbn [for_each]. rewrite bind_run.
    destruct (telemetry_step_relayed live line env st Hlive)
      as (st1 & tr1 & -> & Hr1).
    destruct (IH st1) as (st2 & tr2 & -> & Hr2).
    eexists _, _. split; [done|].
    by apply (relayed_app live st [line] st1 tr1 lines st2 tr2).
Qed.

Lemma telemetry_loop_relayed (live : client → Prop) buf
    (reads : list (Env * bytes)) st :
  Forall (λ r, ∀ w, live w → send_raises r.1 w = false) reads →
  ∃ st' tr, telemetry_loop buf reads st = (Returned tt, st', tr) ∧
            relayed live st (read_lines_from buf (map snd reads)).1 st' tr.
Proof.
  intros Hall. revert buf st.
  induction Hall as [|[env chunk] more Hlive _ IH]; intros buf st.
  - eexists _, _. split; [done|]. apply relayed_nil.
  - cbn [telemetry_loop map snd read_lines_from].
    destruct (on_chunk buf chunk) as [lines buf'].
    destruct (relay_lines_relayed live lines env st Hlive)
      as (st1 & tr1 & -> & Hr1).
    destruct (IH buf' st1) as (st2 & tr2 & -> & Hr2).
    destruct (read_lines_from buf' (map snd more)) as [later buf''].
    eexists _, _. split; [done|].
    by apply (relayed_app live st lines st1 tr1 later st2 tr2).
Qed.

(** X11.  With the port open, the telemetry task never raises, whatever
    the bytes read and whichever deliveries fail; it writes nothing to
    the device, leaves the counter and the sent-line statistics alone,
    and only ever removes sessions from the registry. *)
Theorem telemetry_task_never_raises (reads : list (Env * bytes)) st :
  _ser (serial st) ≠ None →
  let '(r, st', tr) := telemetry_task reads st in
  r = Returned tt ∧ writes tr = [] ∧
  seq st' = seq st ∧ tx_count st' = tx_count st ∧ last_tx st' = last_tx st ∧
  serial st' = serial st ∧ ws_clients st' ⊆ ws_clients st.
Proof.
  intros Hser. unfold telemetry_task.
  destruct (_ser (serial st)) as [port|]; [|done].
  destruct (telemetry_loop_relayed (λ _, False) [] reads st)
    as (st' & tr & -> & Hr).
  { apply Forall_forall. by intros. }
  by destruct Hr as (? & ? & ? & ? & _ & _ & ? & _ & ? & _).
Qed.

(** X12.  The lines relayed are exactly the lines that [read_lines]
    assembles from the bytes read, in order; [rx_count] grows by their
    number and [last_rx] is the last of them. *)
Theorem telemetry_relays_every_line (reads : list (Env * bytes)) st :
  _ser (serial st) ≠ None →
  let '(_, st', tr) := telemetry_task reads st in
  let lines := (read_lines (map snd reads)).1 in
  rx_lines tr = lines ∧
  rx_count st' = rx_count st + Z.of_nat (length lines) ∧
  last_rx st' = match last lines with
                | Some line => Some line
                | None => last_rx st
                end.
Proof.
  intros Hser. unfold telemetry_task.
  destruct (_ser (serial st)) as [port|]; [|done].
  destruct (telemetry_loop_relayed (λ _, False) [] reads st)
    as (st' & tr & -> & Hr).
  { apply Forall_forall. by intros. }
  by destruct Hr as (_ & _ & _ & _ & ? & ? & _ & ? & _).
Qed.

(** X13.  A registered session whose deliveries never fail stays
    registered and receives every line of the device once, in order, as
    an [rx] event. *)
Theorem live_session_receives_every_line (w : client)
    (reads : list (Env * bytes)) st :
  _ser (serial st) ≠ None →
  w ∈ ws_clients st →
  Forall (λ r, send_raises r.1 w = false) reads →
  let '(_, st', tr) := telemetry_task reads st in
  w ∈ ws_clients st' ∧
  delivered w tr =
    map (json_dumps_line "rx") (read_lines (map snd reads)).1.
Proof.
  intros Hser Hw Hlive. unfold telemetry_task.
  destruct (_ser (serial st)) as [port|]; [|done].
  destruct (telemetry_loop_relayed (λ w', w' = w) [] reads st)
    as (st' & tr & -> & Hr).
  { eapply Forall_impl; [exact Hlive|]. by intros r Hr w' ->. }
  destruct Hr as (_ & _ & _ & _ & _ & _ & _ & _ & _ & Hd).
  by apply Hd.
Qed.

End TelemetryFacts.

(** ** The echo of a command *)

Section EchoFacts.
Context `{PyRuntime}.

(** X19.  The echo of a command is delivered exactly once to every
    registered session whose delivery works, the sender included when it
    is registered, whether or not the write to the device succeeded; a
    session that is not registered, or whose delivery fails, receives
    nothing. *)
Theorem echo_reaches_every_live_session ws data m cmd env st (w : client) :
  json_loads data = Some (JDict m) →
  command_of (next_seq (seq st)) m = Some cmd →
  delivered w (handle_msg ws data env st).2 =
    if decide (w ∈ ws_clients st ∧ send_raises env w = false)
    then [json_dumps_line "tx" (render cmd)]
    else [].
Proof.
  intros Hload Hcmd.
  rewrite (handle_msg_command _ _ _ _ _ _ Hload Hcmd), transmit_run.
  rewrite reached_stamped.
  assert (Hd : delivered w (tx_echo (render cmd) env st) =
               if decide (w ∈ ws_clients st ∧ send_raises env w = false)
               then [json_dumps_line "tx" (render cmd)] else []).
  { unfold tx_echo.
    rewrite delivered_fan_out by apply NoDup_filter, NoDup_elements.
    unfold reached. apply decide_ext.
    rewrite list_elem_of_filter, elem_of_elements. tauto. }
  destruct (write_ok env (stamped cmd st)); exact Hd.
Qed.

End EchoFacts.

(** ** The session handler *)

Section SessionFacts.
Context `{PyRuntime}.

Lemma receive_loop_frame ws (msgs : list (Env * WSMsg)) st :
  let '(_, st', _) := receive_loop ws msgs st in
  ws_clients st' = ws_clients st ∧ serial st' = serial st.
Proof.
  revert st. induction msgs as [|[env [data| |]] more IH]; intros st; cbn [receive_loop].
  - done.
  - pose proof (handle_msg_effect ws data env st) as Heff.
    destruct (handle_msg ws data env st) as [[[u|e] st1] tr1];
      destruct Heff as (Hs & Hc & _); [|done].
    specialize (IH st1). destruct (receive_loop ws more st1) as [[r st2] tr2].
    destruct IH as [-> ->]. done.
  - done.
  - apply IH.
Qed.

(** X14.  When the greeting of a new session is delivered, the session
    is out of the registry once its handler ends, however it ends (end of
    the connection, error frame, or a message whose handling raises), and
    the other sessions are as before.  When the greeting cannot be
    delivered, the handler raises at once, no message is handled, and the
    session stays in the registry. *)
Theorem ws_handler_registry ws env0 (msgs : list (Env * WSMsg)) st :
  (send_raises env0 ws = false →
   let '(_, st', tr) := ws_handler ws env0 msgs st in
   ws_clients st' = ws_clients st ∖ {[ws]} ∧ serial st' = serial st ∧
   head tr = Some (WsSend ws (json_dumps_hello (dev (serial st)) (baud (serial st))))) ∧
  (send_raises env0 ws = true →
   ws_handler ws env0 msgs st =
     (Raised ConnectionError,
      set_ws_clients ({[ws]} ∪ ws_clients st) st, [])).
Proof.
  unfold ws_handler, send_str. split; intros ->; [|done].
  pose proof (receive_loop_frame ws msgs
                (set_ws_clients ({[ws]} ∪ ws_clients st) st)) as Hframe.
  destruct (receive_loop ws msgs _) as [[r st2] tr2].
  destruct Hframe as [Hc Hs].
  change (ws_clients st2 = {[ws]} ∪ ws_clients st) in Hc.
  change (serial st2 = serial st) in Hs.
  split_and!.
  - cbn [ws_clients set_ws_clients]. rewrite Hc.
    apply set_eq. intros w.
    rewrite !elem_of_difference, elem_of_union, elem_of_singleton.
    tauto.
  - exact Hs.
  - reflexivity.
Qed.

(** X15.  The receive loop ends at the first error frame and at the
    first message whose handling raises: what follows is never handled.
    Frames that are neither text nor error are skipped. *)
Theorem receive_loop_stops ws (before after : list (Env * WSMsg)) env st :
  receive_loop ws (before ++ (env, ERROR) :: after) st
    = receive_loop ws before st ∧
  receive_loop ws ((env, OTHER) :: after) st = receive_loop ws after st ∧
  ∀ data e st1 tr1,
    handle_msg ws data env st = (Raised e, st1, tr1) →
    receive_loop ws ((env, TEXT data) :: after) st = (Raised e, st1, tr1).
Proof.
  split; [|split; [done|]].
  - revert st. induction before as [|[env' [data| |]] more IH]; intros st;
      cbn [receive_loop app].
    + done.
    + destruct (handle_msg ws data env' st) as [[[u|e] st1] tr1]; [|done].
      by rewrite IH.
    + done.
    + apply IH.
  - intros data e st1 tr1 Hraise. cbn [receive_loop]. by rewrite Hraise.
Qed.

End SessionFacts.

(** ** More on the line assembly *)

Section FramingFacts.

Lemma index_split b (buf : bytes) n :
  index b buf = Some n →
  buf = take n buf ++ b :: drop (S n) buf ∧ index b (take n buf) = None.
Proof.
  revert n. induction buf as [|x buf IH]; intros n; cbn [index]; [done|].
  destruct (Byte.eqb x b) eqn:Hx.
  - intros [= <-]. apply Byte.byte_dec_bl in Hx as ->. done.
  - destruct (index b buf) as [k|]; cbn; [|done]. intros [= <-].
    destruct (IH k eq_refl) as [Hbuf Hnone]. cbn [take drop index].
    rewrite Hx, Hnone. split; [|done]. cbn. by rewrite <- Hbuf.
Qed.

Lemma count_occ_none b (buf : bytes) :
  index b buf = None → count_occ Byte.byte_eq_dec buf b = 0%nat.
Proof.
  induction buf as [|x buf IH]; cbn [index count_occ]; [done|].
  destruct (Byte.eqb x b) eqn:Hx; [done|].
  destruct (index b buf); cbn; [done|]. intros _.
  destruct (Byte.byte_eq_dec x b) as [->|_]; [|by apply IH].
  by rewrite Byte.byte_dec_lb in Hx.
Qed.

Lemma drain_count (buf : bytes) :
  length (drain buf).1 = count_occ Byte.byte_eq_dec buf LF ∧
  (drain buf).2 `suffix_of` buf.
Proof.
  induction buf as [buf IH] using drain_ind.
  rewrite drain_step. destruct (index LF buf) as [n|] eqn:Hn.
  - destruct (IH n eq_refl) as [Hlen Hsuf].
    destruct (index_split _ _ _ Hn) as [Hbuf Hnone].
    destruct (drain (drop (S n) buf)) as [lines rest]. cbn in *.
    rewrite Hlen. split.
    + rewrite Hbuf at 2. rewrite count_occ_app, (count_occ_none _ _ Hnone).
      cbn. by destruct (Byte.byte_eq_dec LF LF).
    + rewrite Hbuf. apply suffix_app_r, suffix_cons_r. done.
  - cbn. split; [by rewrite count_occ_none|done].
Qed.

(** X16.  Whatever the bytes and however they are cut into chunks, one
    line is yielded for each 0x0A received, empty lines included, and the
    buffer is left holding the bytes after the last 0x0A: a suffix of the
    input without 0x0A. *)
Theorem read_lines_one_line_per_newline (chunks : list bytes) :
  let '(lines, buf) := read_lines chunks in
  length lines = count_occ Byte.byte_eq_dec (concat chunks) LF ∧
  buf `suffix_of` concat chunks ∧ index LF buf = None.
Proof.
  unfold read_lines. rewrite read_lines_from_drain by done. cbn [app].
  pose proof (drain_count (concat chunks)) as [Hlen Hsuf].
  pose proof (drain_rest_partial (concat chunks)) as Hnone.
  by destruct (drain (concat chunks)) as [lines buf].
Qed.

Lemma str_forall_rstrip P c s :
  str_forall P s = true → str_forall P (rstrip c s) = true.
Proof.
  intros Hs. destruct (rstrip_suffix c s) as [k Hk].
  rewrite Hk, str_forall_app in Hs. by apply andb_prop in Hs as [? _].
Qed.

Lemma char_is_ascii_of_byte (x : byte) :
  char_is_ascii (ascii_of_byte x) = byte_is_ascii x.
Proof. by destruct x. Qed.

Lemma decode_clean (raw : bytes) :
  index LF raw = None →
  str_forall (λ c, char_is_ascii c && negb (Ascii.eqb c nl))
             (decode_ascii_ignore raw) = true.
Proof.
  induction raw as [|x raw IH]; cbn [index decode_ascii_ignore]; [done|].
  destruct (Byte.eqb x LF) eqn:Hx; [done|].
  destruct (index LF raw); cbn; [done|]. intros _.
  destruct (byte_is_ascii x) eqn:Ha; [|by apply IH].
  cbn [str_forall]. apply andb_true_intro. split; [|by apply IH].
  apply andb_true_intro. split.
  - by rewrite char_is_ascii_of_byte.
  - apply negb_true_iff, Ascii.eqb_neq. intros Heq.
    assert (x = LF) as ->; [|by rewrite Byte.byte_dec_lb in Hx].
    rewrite <- (byte_of_ascii_of_byte x), Heq. done.
Qed.

Lemma drain_lines_clean (buf : bytes) :
  Forall (λ line, str_forall (λ c, char_is_ascii c && negb (Ascii.eqb c nl)) line = true ∧
                  last_char line ≠ Some cr) (drain buf).1.
Proof.
  induction buf as [buf IH] using drain_ind.
  rewrite drain_step. destruct (index LF buf) as [n|] eqn:Hn; [|by constructor].
  specialize (IH n eq_refl).
  destruct (index_split _ _ _ Hn) as [_ Hnone].
  destruct (drain (drop (S n) buf)) as [lines rest]. cbn in *.
  constructor; [|done]. split; [|apply rstrip_last].
  by apply str_forall_rstrip, decode_clean.
Qed.

(** X17.  Every line yielded is clean, whatever bytes the device sends:
    it holds ASCII characters only, no newline, and does not end in a
    carriage return. *)
Theorem read_lines_yields_clean_lines (chunks : list bytes) :
  Forall (λ line, str_forall (λ c, char_is_ascii c && negb (Ascii.eqb c nl)) line = true ∧
                  last_char line ≠ Some cr)
         (read_lines chunks).1.
Proof.
  unfold read_lines. rewrite read_lines_from_drain by done. cbn [app].
  apply drain_lines_clean.
Qed.

Lemma clean_facts (s : string) :
  str_forall (λ c, char_is_ascii c && negb (Ascii.eqb c nl)) s = true →
  str_forall char_is_ascii s = true ∧ last_char s ≠ Some nl ∧
  index LF (encode_ascii_ignore s) = None ∧
  decode_ascii_ignore (encode_ascii_ignore s) = s.
Proof.
  induction s as [|c s IH]; [done|].
  cbn [str_forall]. intros [[Ha Hn]%andb_prop Hs]%andb_prop.
  destruct (IH Hs) as (IH1 & IH2 & IH3 & IH4).
  apply negb_true_iff, Ascii.eqb_neq in Hn.
  cbn [encode_ascii_ignore]. rewrite Ha, IH1. split_and!.
  - done.
  - cbn [last_char]. destruct s; [congruence|done].
  - cbn [index]. rewrite IH3.
    destruct (Byte.eqb (byte_of_ascii c) LF) eqn:Heq; [|done].
    apply Byte.byte_dec_bl in Heq. destruct Hn.
    rewrite <- (ascii_of_byte_of_ascii c), Heq. done.
  - cbn [decode_ascii_ignore].
    rewrite <- char_is_ascii_of_byte, ascii_of_byte_of_ascii, Ha.
    by rewrite IH4.
Qed.

(** X18.  What [write_line] writes, [read_lines] reads back: for an ASCII
    text without newline, the bytes written are assembled by the line
    reader into exactly one line, the text without its trailing carriage
    returns, and nothing is left in the buffer. *)
Theorem write_line_read_back line env st :
  str_forall (λ c, char_is_ascii c && negb (Ascii.eqb c nl)) line = true →
  write_ok env st = true →
  ∃ data, write_line line env st = (Returned tt, st, [SerWrite data]) ∧
          read_lines [data] = ([rstrip cr line], []).
Proof.
  intros Hclean Hok.
  destruct (clean_facts line Hclean) as (Hascii & Hlast & Hnone & Hback).
  exists (wire_line line). split.
  - rewrite write_line_run. unfold write_ok in Hok.
    destruct (_ser (serial st)); [|done]. by destruct (write_raises env).
  - unfold wire_line. rewrite rstrip_id, encode_app by done.
    change (encode_ascii_ignore (String nl EmptyString)) with [LF].
    unfold read_lines. rewrite read_lines_from_drain by done.
    cbn [concat app]. rewrite app_nil_r, drain_line by done.
    rewrite drain_partial by done. unfold line_text. by rewrite Hback.
Qed.

End FramingFacts.

(** ** Properties of the choice of the serial device *)

Section PortFacts.
Import Ports.

#[local] Instance key_le_total : Total key_le.
Proof.
  intros [s1 d1] [s2 d2]. unfold key_le. cbn.
  destruct (Z.lt_trichotomy s1 s2) as [?|[->|?]];
    [right; left; lia| |left; left; lia].
  destruct (total String.le d1 d2); [left|right]; by right.
Qed.

#[local] Instance key_le_trans : Transitive key_le.
Proof.
  intros [s1 d1] [s2 d2] [s3 d3]. unfold key_le. cbn.
  intros [?|[? ?]] [?|[? ?]]; try lia.
  right. split; [lia|]. by etrans.
Qed.

#[local] Instance key_le_antisymm : AntiSymm (=) key_le.
Proof.
  intros [s1 d1] [s2 d2]. unfold key_le. cbn.
  intros [?|[? ?]] [?|[? ?]]; try lia.
  f_equal; [lia|]. by apply (anti_symm String.le).
Qed.

Lemma merge_sort_nil_iff (l : list (Z * string)) :
  merge_sort key_le l = [] ↔ l = [].
Proof.
  split; [|by intros ->].
  intros Hs. apply Permutation_nil_r. rewrite <- Hs.
  symmetry. apply merge_sort_Permutation.
Qed.

(** The head of the sorted candidates is a candidate that no other
    candidate precedes. *)
Lemma merge_sort_head (l : list (Z * string)) best rest :
  merge_sort key_le l = best :: rest →
  best ∈ l ∧ ∀ c, c ∈ l → key_le best c.
Proof.
  intros Hs.
  pose proof (merge_sort_Permutation key_le l) as Hperm.
  pose proof (StronglySorted_merge_sort key_le l) as Hsorted.
  rewrite Hs in Hperm, Hsorted. split.
  - rewrite <- Hperm. by left.
  - intros c Hc. rewrite <- Hperm in Hc.
    apply StronglySorted_cons in Hsorted as [Hall _].
    apply elem_of_cons in Hc as [->|Hc].
    + destruct (total key_le best best); done.
    + rewrite Forall_forall in Hall. by apply Hall.
Qed.

Lemma candidates_nonempty_device (comports : list ListPortInfo) score dev :
  (score, dev) ∈ candidates comports → dev ≠ "" ∧ 0 ≤ score ≤ 2.
Proof.
  unfold candidates. rewrite list_elem_of_In, in_flat_map.
  intros (p & _ & Hin). apply list_elem_of_In in Hin.
  unfold port_candidates in Hin.
  destruct (device p) as [[|c d]|];
    cbn [truthy andb default from_option id app] in Hin;
    try by apply elem_of_nil in Hin.
  apply elem_of_app in Hin as [Hin|Hin];
    (case_match; [|by apply elem_of_nil in Hin]);
    apply list_elem_of_singleton in Hin; injection Hin as -> ->;
    (split; [done|]); try case_match; lia.
Qed.

(** X1.  [pick_serial_port] finds no device exactly when no explicit
    device is given and no port qualifies, and it never answers the empty
    text; an explicit device is answered as it is, whatever the ports. *)
Theorem pick_serial_port_none_iff (explicit : option string)
    (comports : list ListPortInfo) :
  (pick_serial_port explicit comports = None ↔
     truthy explicit = false ∧ candidates comports = []) ∧
  pick_serial_port explicit comports ≠ Some "" ∧
  (truthy explicit = true → pick_serial_port explicit comports = explicit).
Proof.
  unfold pick_serial_port. destruct (truthy explicit) eqn:Hexp.
  - split; [|split; [|done]].
    + split; [|by intros [? _]]. intros ->. done.
    + intros ->. done.
  - split; [|split; [|done]].
    + destruct (merge_sort key_le (candidates comports)) as [|best rest] eqn:Hs.
      * apply (proj1 (merge_sort_nil_iff _)) in Hs. done.
      * split; [done|]. intros [_ Hnil]. rewrite Hnil in Hs. done.
    + destruct (merge_sort key_le (candidates comports)) as [|[score dev] rest] eqn:Hs;
        [done|].
      apply merge_sort_head in Hs as [Hin _].
      apply candidates_nonempty_device in Hin as [Hne _]. cbn. congruence.
Qed.

(** X2.  Without an explicit device, the device chosen is the one of a
    candidate with the highest score (2 for a Unix-named port whose
    description names a known board, 1 for another Unix-named port, 0 for
    a COM port) and, among those, the first name in the order of the
    characters. *)
Theorem pick_serial_port_best (explicit : option string)
    (comports : list ListPortInfo) :
  truthy explicit = false →
  candidates comports ≠ [] →
  ∃ score dev,
    pick_serial_port explicit comports = Some dev ∧
    (score, dev) ∈ candidates comports ∧
    ∀ score' dev', (score', dev') ∈ candidates comports →
      score' < score ∨ (score' = score ∧ String.le dev dev').
Proof.
  intros Hexp Hne. unfold pick_serial_port. rewrite Hexp.
  destruct (merge_sort key_le (candidates comports)) as [|[score dev] rest] eqn:Hs.
  { by apply (proj1 (merge_sort_nil_iff _)) in Hs. }
  apply merge_sort_head in Hs as [Hin Hbest].
  exists score, dev. split; [done|]. split; [done|].
  intros score' dev' Hc. specialize (Hbest _ Hc). unfold key_le in Hbest.
  cbn in Hbest. destruct Hbest as [?|[? ?]]; [left; lia|right; split; [lia|done]].
Qed.

(** X3.  The device chosen does not depend on the order in which the
    ports are listed. *)
Theorem pick_serial_port_order_independent (explicit : option string)
    (comports comports' : list ListPortInfo) :
  comports ≡ₚ comports' →
  pick_serial_port explicit comports = pick_serial_port explicit comports'.
Proof.
  intros Hperm. unfold pick_serial_port.
  destruct (truthy explicit); [done|].
  assert (Hc : candidates comports ≡ₚ candidates comports').
  { unfold candidates. induction Hperm; cbn.
    - done.
    - by apply Permutation_app.
    - rewrite !app_assoc. apply Permutation_app; [apply Permutation_app_comm|done].
    - by etrans. }
  assert (Heq : merge_sort key_le (candidates comports)
                = merge_sort key_le (candidates comports')).
  { apply (Sorted_unique key_le).
    - apply Sorted_merge_sort, _.
    - apply Sorted_merge_sort, _.
    - by rewrite !merge_sort_Permutation. }
  by rewrite Heq.
Qed.

End PortFacts.

(** ** The claims on examples *)

(** C5 on a [twist] message: one line, [TWIST,0.500,-1.000,2]. *)
Lemma handle_msg_renders_command_witness :
  handle_msg (H := example_runtime) 3%nat twist_text all_well bridge =
    (Returned tt,
     set_tx 1 (Some "TWIST,0.500,-1.000,2") (set_seq 2 bridge),
     Logged ToSerial "TWIST,0.500,-1.000,2"
       :: SerWrite (list_byte_of_string "TWIST,0.500,-1.000,2" ++ [LF])
       :: tx_echo "TWIST,0.500,-1.000,2" all_well bridge) ∧
  str_forall is_printable "TWIST,0.500,-1.000,2" = true ∧
  index LF (list_byte_of_string "TWIST,0.500,-1.000,2") = None.
Proof.
  apply (handle_msg_renders_command (H := example_runtime) 3%nat twist_text
           twist_msg
           (Move (S754_finite false 4503599627370496 (-53))
                 (S754_finite true 4503599627370496 (-52)) 2)
           all_well bridge); reflexivity.
Defined.

(** C9 on a [ping] message while the port fails. *)
Lemma failed_write_still_echoes_witness :
  let '(r, st', tr) :=
    handle_msg (H := example_runtime) 3%nat ping_text port_fails bridge in
  r = Raised (write_error port_fails bridge) ∧
  tx_count st' = tx_count bridge ∧ last_tx st' = last_tx bridge ∧
  tr = Logged ToSerial (render (Ping 2))
         :: map (λ w, WsSend w (json_dumps_line "tx" (render (Ping 2))))
                (reached port_fails bridge) ∧
  ∀ w, w ∈ ws_clients bridge → send_raises port_fails w = false →
       WsSend w (json_dumps_line "tx" (render (Ping 2))) ∈ tr.
Proof.
  apply (failed_write_still_echoes (H := example_runtime) 3%nat ping_text
           ping_msg (Ping 2) port_fails bridge); reflexivity.
Defined.

(** C8 on a mask that is the text [abc]. *)
Lemma led_mask_defaults_to_zero_witness :
  handle_msg (H := example_runtime) 3%nat led_bad_text all_well bridge =
    (Returned tt,
     set_tx (tx_count bridge + 1) (Some "LED,0") bridge,
     Logged ToSerial "LED,0"
       :: SerWrite (list_byte_of_string "LED,0" ++ [LF])
       :: tx_echo "LED,0" all_well bridge).
Proof.
  apply (led_mask_defaults_to_zero (H := example_runtime) 3%nat led_bad_text
           led_bad_msg ValueError all_well bridge); reflexivity.
Defined.

(** C10 on [enable] being 0. *)
Lemma safe_enable_truthiness_witness :
  handle_msg (H := example_runtime) 3%nat safe_off_text all_well bridge =
    (Returned tt,
     set_tx (tx_count bridge + 1) (Some "SAFE,0") bridge,
     Logged ToSerial "SAFE,0"
       :: SerWrite (list_byte_of_string "SAFE,0" ++ [LF])
       :: tx_echo "SAFE,0" all_well bridge) ∧
  py_bool (JBool false) = false ∧ py_bool (JInt 0) = false ∧
  py_bool (JStr "") = false ∧ py_bool JNull = false ∧
  py_bool (JBool true) = true ∧ py_bool (JInt 1) = true ∧
  py_bool (JStr "0") = true.
Proof.
  apply (safe_enable_truthiness (H := example_runtime) 3%nat safe_off_text
           safe_off_msg all_well bridge); reflexivity.
Defined.

(** C4 with the session 3 dead: the line reaches the session 5. *)
Lemma broadcast_isolates_failure_witness :
  let '(r, st', tr) :=
    telemetry_step "STATUS" session_3_dead bridge in
  r = Returned tt ∧
  ws_clients st' = ws_clients bridge ∖ {[3%nat]} ∧
  ∃ targets,
    tr = Logged ToWs "STATUS"
           :: map (λ w, WsSend w (json_dumps_line "rx" "STATUS")) targets ∧
    targets ≡ₚ elements (ws_clients bridge ∖ {[3%nat]}) ∧
    length targets = (size (ws_clients bridge) - 1)%nat.
Proof.
  apply (broadcast_isolates_failure "STATUS" session_3_dead bridge 3%nat).
  - apply (bool_decide_unpack _). vm_compute. exact I.
  - intros w _. apply bool_decide_eq_true.
Defined.

(** C7 on the text [PING,7]. *)
Lemma write_line_bytes_witness :
  write_line "PING,7" all_well bridge =
    (Returned tt, bridge,
     [SerWrite (encode_ascii_ignore (rstrip nl "PING,7") ++ [LF])]) ∧
  (str_forall char_is_ascii "PING,7" = true → last_char "PING,7" ≠ Some nl →
   encode_ascii_ignore (rstrip nl "PING,7") = list_byte_of_string "PING,7").
Proof.
  apply (write_line_bytes "PING,7" all_well bridge). reflexivity.
Defined.

(** C7 as stated fails: of a text that ends in a newline the newline is
    not written twice. *)
Lemma write_line_newline_counterexample :
  write_line (String "A" (String nl EmptyString)) all_well bridge =
    (Returned tt, bridge, [SerWrite [x41; x0a]]) ∧
  [x41; x0a] ≠ list_byte_of_string (String "A" (String nl EmptyString)) ++ [LF].
Proof. split; [reflexivity|discriminate]. Qed.

(** C3 fails on the code: the [twist] message whose [vx] is the text
    [abc] makes [handle_msg] raise [ValueError], which ends the receive
    loop of its session: the [ping] that follows is never handled, and
    the session leaves the registry. *)
Lemma twist_bad_vx_raises :
  handle_msg (H := example_runtime) 3%nat twist_bad_text all_well bridge =
    (Raised ValueError, bridge, []) ∧
  ws_handler (H := example_runtime) 3%nat all_well
    [(all_well, TEXT twist_bad_text); (all_well, TEXT ping_text)] bridge =
    (Raised ValueError, set_ws_clients {[ 5%nat ]} bridge,
     [WsSend 3%nat (json_dumps_hello "/dev/ttyACM0" 115200)]).
Proof.
  split; vm_compute; reflexivity.
Qed.

(** ** The further properties on examples *)

(** X2: of the four ports the Arduino on [/dev/ttyACM0] is chosen. *)
Lemma pick_serial_port_best_witness :
  ∃ score dev,
    Ports.pick_serial_port None example_ports = Some dev ∧
    (score, dev) ∈ Ports.candidates example_ports ∧
    ∀ score' dev', (score', dev') ∈ Ports.candidates example_ports →
      score' < score ∨ (score' = score ∧ String.le dev dev').
Proof.
  apply (pick_serial_port_best None example_ports); [reflexivity|].
  vm_compute. discriminate.
Defined.

(** X3: the first two ports exchanged. *)
Lemma pick_serial_port_order_independent_witness :
  Ports.pick_serial_port None
    [ {| Ports.device := Some "COM3"; Ports.description := None |};
      {| Ports.device := Some "/dev/ttyUSB1"; Ports.description := Some "FTDI" |} ]
  = Ports.pick_serial_port None
    [ {| Ports.device := Some "/dev/ttyUSB1"; Ports.description := Some "FTDI" |};
      {| Ports.device := Some "COM3"; Ports.description := None |} ].
Proof.
  apply (pick_serial_port_order_independent None). apply perm_swap.
Defined.

(** X4: the five messages after the port is closed. *)
Lemma closed_port_takes_no_write_witness :
  close (close (serial bridge)) = close (serial bridge) ∧
  let '(st', tr) :=
    serve (H := example_runtime) example_inputs
          (set_serial (close (serial bridge)) bridge) in
  writes tr = [] ∧ tx_count st' = tx_count bridge ∧
  last_tx st' = last_tx bridge ∧ _ser (serial st') = None.
Proof.
  apply (closed_port_takes_no_write (H := example_runtime) bridge example_inputs).
  intros port [= <-]. reflexivity.
Defined.

(** X7: the five messages with the port working. *)
Lemma every_command_is_written_witness :
  let '(_, tr) := serve (H := example_runtime) example_inputs bridge in
  writes tr = map (λ cmd, on_wire (render cmd))
                  (commands (H := example_runtime) (seq bridge)
                            (map snd example_inputs)) ∧
  concat (writes tr) =
    frame (map (λ cmd, list_byte_of_string (render cmd))
               (commands (H := example_runtime) (seq bridge)
                         (map snd example_inputs))).
Proof.
  apply (every_command_is_written (H := example_runtime) example_inputs bridge).
  - discriminate.
  - repeat constructor.
Defined.

(** X9: a [twist] with its type only. *)
Lemma missing_fields_default_witness :
  handle_msg (H := bare_runtime) 3%nat bare_twist_text all_well bridge =
    (Returned tt,
     set_tx (tx_count bridge + 1) (Some "TWIST,0.000,0.000,2")
       (set_seq (next_seq (seq bridge)) bridge),
     Logged ToSerial "TWIST,0.000,0.000,2"
       :: SerWrite (on_wire "TWIST,0.000,0.000,2")
       :: tx_echo "TWIST,0.000,0.000,2" all_well bridge).
Proof.
  apply (proj1 (missing_fields_default (H := bare_runtime) 3%nat bare_twist_text
                  {[ "type" := JStr "twist" ]} all_well bridge
                  eq_refl eq_refl)); reflexivity.
Defined.

(** X10: the counter after the five messages. *)
Lemma seq_stays_in_range_witness :
  0 ≤ seq (serve (H := example_runtime) example_inputs bridge).1 < 2 ^ 32.
Proof.
  apply (seq_stays_in_range (H := example_runtime) example_inputs bridge).
  change (0 ≤ 1 < 2 ^ 32). lia.
Defined.

(** X11: the two reads, the session 3 dead during the first. *)
Lemma telemetry_task_never_raises_witness :
  let '(r, st', tr) := telemetry_task example_reads bridge in
  r = Returned tt ∧ writes tr = [] ∧
  seq st' = seq bridge ∧ tx_count st' = tx_count bridge ∧
  last_tx st' = last_tx bridge ∧
  serial st' = serial bridge ∧ ws_clients st' ⊆ ws_clients bridge.
Proof.
  apply (telemetry_task_never_raises example_reads bridge). discriminate.
Defined.

(** X12: the two reads yield the lines [OK] and [STAT]. *)
Lemma telemetry_relays_every_line_witness :
  let '(_, st', tr) := telemetry_task example_reads bridge in
  let lines := (read_lines (map snd example_reads)).1 in
  rx_lines tr = lines ∧
  rx_count st' = rx_count bridge + Z.of_nat (length lines) ∧
  last_rx st' = match last lines with
                | Some line => Some line
                | None => last_rx bridge
                end.
Proof.
  apply (telemetry_relays_every_line example_reads bridge). discriminate.
Defined.

(** X13: the session 5 receives both lines. *)
Lemma live_session_receives_every_line_witness :
  let '(_, st', tr) := telemetry_task example_reads bridge in
  5%nat ∈ ws_clients st' ∧
  delivered 5%nat tr =
    map (json_dumps_line "rx") (read_lines (map snd example_reads)).1.
Proof.
  apply (live_session_receives_every_line 5%nat example_reads bridge).
  - discriminate.
  - apply (bool_decide_unpack _). vm_compute. exact I.
  - repeat constructor.
Defined.

(** X18: the line [PING,7] written and read back. *)
Lemma write_line_read_back_witness :
  ∃ data, write_line "PING,7" all_well bridge = (Returned tt, bridge, [SerWrite data]) ∧
          read_lines [data] = ([rstrip cr "PING,7"], []).
Proof.
  apply (write_line_read_back "PING,7" all_well bridge); reflexivity.
Defined.

(** X19: the echo of a [ping] of the session 3 while its own delivery
    fails reaches the session 5 and not the session 3. *)
Lemma echo_reaches_every_live_session_witness :
  delivered 5%nat
    (handle_msg (H := example_runtime) 3%nat ping_text session_3_dead bridge).2 =
    (if decide (5%nat ∈ ws_clients bridge ∧ send_raises session_3_dead 5%nat = false)
     then [json_dumps_line "tx" (render (Ping 2))]
     else []).
Proof.
  apply (echo_reaches_every_live_session (H := example_runtime) 3%nat ping_text
           ping_msg (Ping 2) session_3_dead bridge 5%nat); reflexivity.
Defined.
